(** * CricFantasy front end: team builder, contest lobby, session state

    A shallow embedding of the React components of the repository
    (CreateTeam, Contests, Landing, Navbar, AuthContext) together with
    the part of the REST back end that the specification describes but the
    repository sources do not contain.

    JavaScript numbers are IEEE-754 binary64 values; they are modelled by
    the executable specification of binary floating point that ships with
    the standard library ([SpecFloat]), instantiated at precision 53. *)

From Stdlib Require Import ZArith List Bool String Ascii Lia PeanoNat QArith.
From Stdlib Require Import SpecFloat DecimalString Permutation.
Import ListNotations.

Open Scope string_scope.
Open Scope list_scope.
Open Scope Z_scope.

(* ================================================================= *)
(** ** JavaScript numbers *)

Module JsNumber.

Definition prec : Z := 53.
Definition emax : Z := 1024.

Definition number : Type := spec_float.

(** An integer literal, or an integer that arrives in a JSON body. *)
Definition of_Z (z : Z) : number := binary_normalize prec emax z 0 false.

Definition add : number -> number -> number := SFadd prec emax.
Definition sub : number -> number -> number := SFsub prec emax.
Definition div : number -> number -> number := SFdiv prec emax.

(** [x < y] of JavaScript: false as soon as one side is NaN. *)
Definition ltb : number -> number -> bool := SFltb.

(** The number a decimal literal with two fractional digits denotes:
    the binary64 value nearest to [h / 100]. *)
Definition of_hundredths (h : Z) : number := div (of_Z h) (of_Z 100).

(** [h / 2] as a number; every such value of moderate size is exact. *)
Definition of_halves (h : Z) : number := binary_normalize prec emax h (-1) false.

(** Shifting a mantissa left by [k] binary places. *)
Definition nshl (n : positive) (k : nat) : positive := Nat.iter k xO n.

(** The normal form of [n * 2^e] when [n] has at most 53 digits. *)
Definition canon (s : bool) (n : positive) (e : Z) : number :=
  let d := Zpos (digits2_pos n) in
  S754_finite s (nshl n (Z.to_nat (prec - d))) (d + e - prec).

End JsNumber.

Import JsNumber.

(* ================================================================= *)
(** ** Requests, responses and page effects *)

Module Api.

(** One element of [teamPayload.players]. *)
Record PayloadPlayer := mkPayloadPlayer {
  player_id : string;
  is_captain : bool;
  is_vice_captain : bool }.

(** The body of [POST /teams]. *)
Record TeamPayload := mkTeamPayload {
  match_id : string;
  team_name : string;
  players : list PayloadPlayer }.

(** The body of [POST /contests/{contestId}/join]. *)
Record JoinPayload := mkJoinPayload {
  contest_id : string;
  team_id : string }.

(** [teamResponse.data]; the component reads its [id] only. *)
Record TeamData := mkTeamData { id : string }.

(** A rejected request. [detail] is [error.response?.data?.detail], a
    string when present: absent when the response, its body or the field
    is missing. *)
Record HttpError := mkHttpError { detail : option string }.

Inductive Request :=
| PostTeams (payload : TeamPayload)
| PostJoin (contestId : string) (payload : JoinPayload).

(** The two endpoints [handleSubmit] talks to, as transformers of the
    server's state. *)
Record Backend (Server : Type) := mkBackend {
  post_teams : TeamPayload -> Server -> Server * (HttpError + TeamData);
  post_join : string -> JoinPayload -> Server -> Server * (HttpError + unit) }.

Arguments post_teams {Server}.
Arguments post_join {Server}.

Record Toast := mkToast {
  title : string;
  description : string;
  variant : option string }.

(** Everything a handler can affect outside the component's own state:
    the server, the requests sent so far (oldest first), the toasts shown
    and the routes navigated to. *)
Record World (Server : Type) := mkWorld {
  server : Server;
  sent : list Request;
  toasts : list Toast;
  navigated : list string }.

Arguments mkWorld {Server}.
Arguments server {Server}.
Arguments sent {Server}.
Arguments toasts {Server}.
Arguments navigated {Server}.

(** An async function body: it runs against the world and either returns
    or throws. *)
Definition Task (Server A : Type) : Type :=
  World Server -> World Server * (HttpError + A).

Section Tasks.

Context {Server : Type}.

Definition ret {A} (a : A) : Task Server A := fun w => (w, inr a).

Definition bind {A B} (m : Task Server A) (k : A -> Task Server B) : Task Server B :=
  fun w =>
    match m w with
    | (w', inr a) => k a w'
    | (w', inl e) => (w', inl e)
    end.

(** [try { body } catch (error) { handler }] *)
Definition tryCatch {A} (body : Task Server A) (handler : HttpError -> Task Server A)
  : Task Server A :=
  fun w =>
    match body w with
    | (w', inr a) => (w', inr a)
    | (w', inl e) => handler e w'
    end.

Definition toast (t : Toast) : Task Server unit :=
  fun w => (mkWorld (server w) (sent w) (toasts w ++ [t]) (navigated w), inr tt).

Definition navigate (path : string) : Task Server unit :=
  fun w => (mkWorld (server w) (sent w) (toasts w) (navigated w ++ [path]), inr tt).

Variable api : Backend Server.

(** [await api.post('/teams', payload)] *)
Definition api_post_teams (payload : TeamPayload) : Task Server TeamData :=
  fun w =>
    let '(s', r) := post_teams api payload (server w) in
    (mkWorld s' (sent w ++ [PostTeams payload]) (toasts w) (navigated w), r).

(** [await api.post(`/contests/${contestId}/join`, payload)] *)
Definition api_post_join (contestId : string) (payload : JoinPayload)
  : Task Server unit :=
  fun w =>
    let '(s', r) := post_join api contestId payload (server w) in
    (mkWorld s' (sent w ++ [PostJoin contestId payload]) (toasts w) (navigated w), r).

End Tasks.

End Api.

Declare Scope task_scope.
Delimit Scope task_scope with task.
Notation "x <- c1 ;; c2" := (Api.bind c1 (fun x => c2))
  (at level 61, c1 at next level, right associativity) : task_scope.

(* ================================================================= *)
(** ** The team builder ([CreateTeam]) *)

Module CreateTeam.

Import Api.

(** A player as [GET /players/{matchId}] delivers it. *)
Record Player := mkPlayer {
  id : string;
  name : string;
  role : string;
  team : string;
  base_price : number }.

(** The [useState] cells of the component. *)
Record State := mkState {
  players : list Player;
  selectedPlayers : list Player;
  captain : option Player;
  viceCaptain : option Player;
  teamName : string;
  loading : bool;
  filter : string }.

Definition initialState : State :=
  {| players := [];
     selectedPlayers := [];
     captain := None;
     viceCaptain := None;
     teamName := "My Warriors";
     loading := true;
     filter := "all" |}.

Definition setPlayers (v : list Player) (st : State) : State :=
  mkState v (selectedPlayers st) (captain st) (viceCaptain st)
          (teamName st) (loading st) (filter st).

Definition setSelectedPlayers (v : list Player) (st : State) : State :=
  mkState (players st) v (captain st) (viceCaptain st)
          (teamName st) (loading st) (filter st).

Definition setCaptain (v : option Player) (st : State) : State :=
  mkState (players st) (selectedPlayers st) v (viceCaptain st)
          (teamName st) (loading st) (filter st).

Definition setViceCaptain (v : option Player) (st : State) : State :=
  mkState (players st) (selectedPlayers st) (captain st) v
          (teamName st) (loading st) (filter st).

Definition setTeamName (v : string) (st : State) : State :=
  mkState (players st) (selectedPlayers st) (captain st) (viceCaptain st)
          v (loading st) (filter st).

Definition setLoading (v : bool) (st : State) : State :=
  mkState (players st) (selectedPlayers st) (captain st) (viceCaptain st)
          (teamName st) v (filter st).

Definition setFilter (v : string) (st : State) : State :=
  mkState (players st) (selectedPlayers st) (captain st) (viceCaptain st)
          (teamName st) (loading st) v.

(** [designated?.id === player.id]; [undefined] equals no id. *)
Definition holds (designated : option Player) (player : Player) : bool :=
  match designated with
  | Some c => String.eqb (id c) (id player)
  | None => false
  end.

(** [selectedPlayers.find(p => p.id === player.id)], as a truth value. *)
Definition isSelected (st : State) (player : Player) : bool :=
  match find (fun p => String.eqb (id p) (id player)) (selectedPlayers st) with
  | Some _ => true
  | None => false
  end.

(** The tests read the state of the render in which the handler was
    created; the setters take effect together afterwards. *)
Definition togglePlayer (st : State) (player : Player) : State :=
  if isSelected st player then
    let st1 :=
      setSelectedPlayers
        (List.filter (fun p => negb (String.eqb (id p) (id player)))
                     (selectedPlayers st)) st in
    let st2 := if holds (captain st) player then setCaptain None st1 else st1 in
    if holds (viceCaptain st) player then setViceCaptain None st2 else st2
  else if (List.length (selectedPlayers st) <? 11)%nat then
    setSelectedPlayers (selectedPlayers st ++ [player]) st
  else st.

Definition totalCredits (st : State) : number :=
  fold_left (fun sum p => add sum (base_price p)) (selectedPlayers st) (of_Z 0).

Definition creditsLeft (st : State) : number :=
  sub (of_Z 100) (totalCredits st).

(** [!x] for a value that is [null] or an object. *)
Definition isNull {A} (x : option A) : bool :=
  match x with Some _ => false | None => true end.

(** The [disabled] attribute of the submit button. *)
Definition submitDisabled (st : State) : bool :=
  negb (List.length (selectedPlayers st) =? 11)%nat
  || isNull (captain st) || isNull (viceCaptain st)
  || ltb (creditsLeft st) (of_Z 0).

Definition filteredPlayers (st : State) : list Player :=
  if String.eqb (filter st) "all" then players st
  else List.filter (fun p => String.eqb (role p) (filter st)) (players st).

(** [x || fallback] for a string that may be missing: the empty string
    is falsy as well. *)
Definition orElse (x : option string) (fallback : string) : string :=
  match x with
  | Some EmptyString => fallback
  | Some s => s
  | None => fallback
  end.

Section Page.

(** The route parameters of the page and the server behind [api]. *)
Variables matchId contestId : string.
Context {Server : Type}.
Variable api : Backend Server.

Definition teamPayload (st : State) : TeamPayload :=
  {| match_id := matchId;
     team_name := teamName st;
     Api.players :=
       map (fun p =>
              {| player_id := id p;
                 is_captain := holds (captain st) p;
                 is_vice_captain := holds (viceCaptain st) p |})
           (selectedPlayers st) |}.

Definition handleSubmit (st : State) : Task Server unit :=
  if negb (List.length (selectedPlayers st) =? 11)%nat then
    toast {| title := "Error";
             description := "Select exactly 11 players";
             variant := Some "destructive" |}
  else if isNull (captain st) || isNull (viceCaptain st) then
    toast {| title := "Error";
             description := "Select captain and vice-captain";
             variant := Some "destructive" |}
  else
    tryCatch
      (teamResponse <- api_post_teams api (teamPayload st) ;;
       _ <- api_post_join api contestId
              {| contest_id := contestId;
                 team_id := Api.id teamResponse |} ;;
       _ <- toast {| title := "Success";
                     description := "Team created and contest joined!";
                     variant := None |} ;;
       navigate "/my-contests")%task
      (fun error =>
         toast {| title := "Error";
                  description := orElse (detail error) "Failed to create team";
                  variant := Some "destructive" |}).

(** A click on the submit button: a disabled button swallows it. *)
Definition clickSubmit (st : State) : Task Server unit :=
  if submitDisabled st then ret tt else handleSubmit st.

End Page.

(** [fetchPlayers], given how [api.get(`/players/${matchId}`)] settled. *)
Definition fetchPlayers {Server} (response : HttpError + list Player) (st : State)
  : Task Server State :=
  match response with
  | inr data => ret (setLoading false (setPlayers data st))
  | inl _ =>
      (_ <- toast {| title := "Error";
                     description := "Failed to load players";
                     variant := Some "destructive" |} ;;
       ret (setLoading false st))%task
  end.

(** The [disabled] attribute of the checkbox of a row. *)
Definition checkboxDisabled (st : State) (player : Player) : bool :=
  negb (isSelected st player) && (11 <=? List.length (selectedPlayers st))%nat.

(** What the user can do on the page. Rows are addressed by their
    position in the rendered list [filteredPlayers]. *)
Inductive Event :=
| ToggleRow (i : nat)
| ClickC (i : nat)
| ClickVC (i : nat)
| ChangeFilter (v : string)
| ChangeTeamName (v : string)
| PlayersArrive (data : list Player).

(** The state after an event; a control that is not rendered, or is
    rendered disabled, does nothing. *)
Definition dispatch (st : State) (ev : Event) : State :=
  match ev with
  | ToggleRow i =>
      match nth_error (filteredPlayers st) i with
      | Some player =>
          if checkboxDisabled st player then st else togglePlayer st player
      | None => st
      end
  | ClickC i =>
      match nth_error (filteredPlayers st) i with
      | Some player => if isSelected st player then setCaptain (Some player) st else st
      | None => st
      end
  | ClickVC i =>
      match nth_error (filteredPlayers st) i with
      | Some player => if isSelected st player then setViceCaptain (Some player) st else st
      | None => st
      end
  | ChangeFilter v => setFilter v st
  | ChangeTeamName v => setTeamName v st
  | PlayersArrive data => setLoading false (setPlayers data st)
  end.

Definition run (evs : list Event) (st : State) : State :=
  fold_left dispatch evs st.

End CreateTeam.
(* ================================================================= *)
(** ** The contest lobby ([Contests]) *)

Module Contests.

Import Api.

(** A contest as [GET /contests] delivers it. Counts and amounts are
    integral JSON numbers. *)
Record Contest := mkContest {
  id : string;
  match_id : string;
  name : string;
  status : string;
  entry_fee : Z;
  prize_pool : Z;
  max_users : Z;
  joined_users : Z }.

(** What reading a property of an object yields, as far as a card can
    tell: a truthy value, with its [team1] and [team2] where it has them,
    or [undefined] (or another falsy value). *)
Inductive Read :=
| Truthy (t1 t2 : option string)
| Falsy.

(** A match as [GET /matches] delivers it: the properties the lobby
    names, and [m_get], what reading any property of the object yields
    (its own properties, then the members every object inherits). The
    object has no property of its own named [__proto__]. *)
Record Match := mkMatch {
  m_id : string;
  team1 : string;
  team2 : string;
  m_get : string -> Read }.

(** The value of a property that holds a match. *)
Definition ofMatch (m : Match) : Read :=
  Truthy (Some (team1 m)) (Some (team2 m)).

(** The names of the members every object inherits from
    [Object.prototype]. *)
Definition inheritedNames : list string :=
  ["constructor"; "__defineGetter__"; "__defineSetter__"; "hasOwnProperty";
   "__lookupGetter__"; "__lookupSetter__"; "isPrototypeOf";
   "propertyIsEnumerable"; "toString"; "valueOf"; "__proto__";
   "toLocaleString"].

Definition inherited (key : string) : bool :=
  existsb (String.eqb key) inheritedNames.

(** A JavaScript object used as a map from match id to match: its own
    properties, most recent assignment first, and the match object an
    assignment to [__proto__] has made its prototype, if any. *)
Record MatchMap := mkMatchMap {
  own : list (string * Match);
  proto : option Match }.

(** [{}] *)
Definition emptyMap : MatchMap := {| own := []; proto := None |}.

(** [m[key] = v]: an assignment to [__proto__] replaces the prototype
    and creates no property; any other key becomes, or stays, a property
    of the object itself. *)
Definition assign (key : string) (v : Match) (m : MatchMap) : MatchMap :=
  if String.eqb key "__proto__"
  then {| own := own m; proto := Some v |}
  else {| own := (key, v) :: own m; proto := proto m |}.

Fixpoint ownProperty (key : string) (l : list (string * Match)) : option Match :=
  match l with
  | [] => None
  | (k, v) :: rest => if String.eqb k key then Some v else ownProperty key rest
  end.

(** [m[key]]: the object's own property; failing that, the prototype
    chain. With the prototype replaced by a match object, [__proto__]
    reads that object and any other key reads through it; otherwise the
    members every object inherits are found, all of them truthy and
    without [team1] or [team2]. *)
Definition lookup (key : string) (m : MatchMap) : Read :=
  match ownProperty key (own m) with
  | Some v => ofMatch v
  | None =>
      match proto m with
      | Some p => if String.eqb key "__proto__" then ofMatch p else m_get p key
      | None => if inherited key then Truthy None None else Falsy
      end
  end.

Record State := mkState {
  contests : list Contest;
  matches : MatchMap;
  loading : bool }.

Definition initialState : State :=
  {| contests := []; matches := emptyMap; loading := true |}.

(** [matchesRes.data.matches.forEach(match => matchesMap[match.id] = match)] *)
Definition matchesMap (ms : list Match) : MatchMap :=
  fold_left (fun acc m => assign (m_id m) m acc) ms emptyMap.

(** [fetchData], given how the two requests under [Promise.all] settled:
    a rejection of either skips both setters; [finally] clears
    [loading]. *)
Definition fetchData (contestsRes : HttpError + list Contest)
           (matchesRes : HttpError + list Match) (st : State) : State :=
  match contestsRes, matchesRes with
  | inr cs, inr ms =>
      {| contests := cs; matches := matchesMap ms; loading := false |}
  | _, _ =>
      {| contests := contests st; matches := matches st; loading := false |}
  end.

Definition spotsLeft (contest : Contest) : Z :=
  max_users contest - joined_users contest.

(** The badge variant of a card. *)
Definition badgeVariant (contest : Contest) : string :=
  if String.eqb (status contest) "open" then "default" else "secondary".

(** [${x}] for a property that is a string or [undefined]. *)
Definition interpolate (x : option string) : string :=
  match x with
  | Some s => s
  | None => "undefined"
  end.

(** The description line of a card:
    [match ? `${match.team1} vs ${match.team2}` : 'Loading match...']. *)
Definition cardDescription (st : State) (contest : Contest) : string :=
  match lookup (match_id contest) (matches st) with
  | Truthy t1 t2 => interpolate t1 ++ " vs " ++ interpolate t2
  | Falsy => "Loading match..."
  end.

(** The route behind the card's [Join Contest] button. *)
Definition joinLink (contest : Contest) : string :=
  "/create-team/" ++ match_id contest ++ "/" ++ id contest.

End Contests.
(* ================================================================= *)
(** ** The session ([AuthContext]) *)

Module AuthContext.

Import Api.

Record User := mkUser {
  id : string;
  username : string;
  wallet_balance : number }.

(** [response.data] of a login or a registration. *)
Record Credentials := mkCredentials {
  access_token : string;
  user : User }.

(** The provider's two [useState] cells ([currentUser] is the cell the
    source calls [user]), the [auth_token] entry of [localStorage], and
    the last value assigned to [window.location.href]. *)
Record State := mkState {
  currentUser : option User;
  loading : bool;
  auth_token : option string;
  href : option string }.

(** The provider before its mount effect ran, with whatever token the
    browser has kept. *)
Definition initialState (stored : option string) : State :=
  {| currentUser := None; loading := true; auth_token := stored; href := None |}.

(** [fetchProfile], given how [api.get('/auth/profile')] settled. *)
Definition fetchProfile (response : HttpError + User) (st : State) : State :=
  match response with
  | inr data => mkState (Some data) false (auth_token st) (href st)
  | inl _ => mkState (currentUser st) false None (href st)
  end.

(** The mount effect: [if (token)] takes a missing token and the empty
    string alike for no token. *)
Definition mount (response : HttpError + User) (st : State) : State :=
  match auth_token st with
  | Some (String _ _) => fetchProfile response st
  | _ => mkState (currentUser st) false (auth_token st) (href st)
  end.

(** [login] and [register] store what the server answers and return it;
    a rejected request is thrown on before anything is stored. *)
Definition login (response : HttpError + Credentials) (st : State)
  : State * (HttpError + Credentials) :=
  match response with
  | inr data =>
      (mkState (Some (user data)) (loading st) (Some (access_token data)) (href st),
       inr data)
  | inl e => (st, inl e)
  end.

Definition register (response : HttpError + Credentials) (st : State)
  : State * (HttpError + Credentials) :=
  match response with
  | inr data =>
      (mkState (Some (user data)) (loading st) (Some (access_token data)) (href st),
       inr data)
  | inl e => (st, inl e)
  end.

Definition logout (st : State) : State :=
  mkState None (loading st) None (Some "/").

(** [isAuthenticated: !!user] *)
Definition isAuthenticated (st : State) : bool :=
  match currentUser st with Some _ => true | None => false end.

(** What can happen to the provider; [Refresh] is a call of
    [refreshProfile]. *)
Inductive Event :=
| Mount (response : HttpError + User)
| Login (response : HttpError + Credentials)
| Register (response : HttpError + Credentials)
| Logout
| Refresh (response : HttpError + User).

Definition dispatch (st : State) (ev : Event) : State :=
  match ev with
  | Mount r => mount r st
  | Login r => fst (login r st)
  | Register r => fst (register r st)
  | Logout => logout st
  | Refresh r => fetchProfile r st
  end.

Definition run (evs : list Event) (st : State) : State :=
  fold_left dispatch evs st.

(** The event is a rejected request or a logout. *)
Definition unsuccessful (ev : Event) : bool :=
  match ev with
  | Mount (inl _) | Login (inl _) | Register (inl _) | Refresh (inl _) => true
  | Logout => true
  | _ => false
  end.

End AuthContext.

(* ================================================================= *)
(** ** The navigation bar ([Navbar]) *)

Module Navbar.

(** [isActive], for the current [location.pathname]. *)
Definition isActive (pathname path : string) : bool :=
  String.eqb pathname path.

(** The targets of the four links shown to a signed-in user. *)
Definition links : list string :=
  ["/"; "/contests"; "/my-contests"; "/wallet"].

(** The [variant] of the button of a link. *)
Definition variantOf (pathname path : string) : string :=
  if isActive pathname path then "default" else "ghost".

End Navbar.

(* ================================================================= *)
(** ** The landing page ([Landing]) *)

Module Landing.

Import Api.

(** [fetchFeaturedContests], given how [api.get('/contests')] settled;
    the state is the list of featured contests. *)
Definition fetchFeaturedContests (response : HttpError + list Contests.Contest)
           (contests : list Contests.Contest) : list Contests.Contest :=
  match response with
  | inr data => firstn 3 data
  | inl _ => contests
  end.

(** [contests.length > 0 && ...]: whether the featured section shows. *)
Definition showsFeatured (contests : list Contests.Contest) : bool :=
  (0 <? List.length contests)%nat.

End Landing.
(* ================================================================= *)
(** ** The REST back end, as the specification describes it

    The repository sources contain the React front end only. The
    endpoints behind [POST /teams] and [POST /contests/{id}/join], and the
    scoring functions, are modelled here from sections 3, 4.1, 4.2 and 4.3
    of the specification. *)

Module Backend.

Import Api.
Import Contests.

(** Modelled from the spec: the roster store's view of a player (section
    3, "Player": identity, association to exactly one match, base credit
    cost). The cost is kept in hundredths of a credit, an exact
    fixed-point representation. *)
Record RosterPlayer := mkRosterPlayer {
  rp_id : string;
  rp_match : string;
  rp_cost : Z }.

(** Modelled from the spec: a stored fantasy team (section 3, "Team"). *)
Record Team := mkTeam {
  t_id : string;
  t_owner : string;
  t_match : string;
  t_name : string;
  t_members : list PayloadPlayer }.

(** Modelled from the spec: a contest entry (section 3). *)
Record Entry := mkEntry {
  e_user : string;
  e_team : string;
  e_contest : string }.

(** Modelled from the spec: the two transaction types of section 3. *)
Inductive TxKind := Credit | Debit.

(** Modelled from the spec: a wallet transaction (section 3, "Wallet"). *)
Record Transaction := mkTransaction {
  tx_user : string;
  tx_kind : TxKind;
  tx_amount : Z;
  tx_reference : string }.

(** Modelled from the spec: the stores of section 2. *)
Record Server := mkServer {
  roster : list RosterPlayer;
  contests : list Contest;
  teams : list Team;
  entries : list Entry;
  balances : list (string * Z);
  transactions : list Transaction }.

(** Modelled from the spec: the reasons for which [validateTeam] (section
    4.1) rejects, one per check. *)
Inductive TeamRejection :=
| NotElevenDistinct
| NotInMatch
| BadCaptain
| OverBudget.

(** Modelled from the spec: the reason as reported to the caller (section
    7, "surfaced verbatim"); the wording is this model's. *)
Definition team_rejection_text (r : TeamRejection) : string :=
  match r with
  | NotElevenDistinct => "Team must have exactly 11 distinct players"
  | NotInMatch => "All players must belong to the match"
  | BadCaptain => "Captain and vice-captain must be two selected players"
  | OverBudget => "Team exceeds the budget of 100 credits"
  end.

(** Modelled from the spec: "distinct player references" (section 4.1). *)
Fixpoint distinct (l : list string) : bool :=
  match l with
  | [] => true
  | x :: rest => negb (existsb (String.eqb x) rest) && distinct rest
  end.

(** Modelled from the spec: roster read access by player id. *)
Definition roster_find (s : Server) (pid : string) : option RosterPlayer :=
  find (fun rp => String.eqb (rp_id rp) pid) (roster s).

(** Modelled from the spec: "belonging to the specified match" (4.1). *)
Definition in_match (s : Server) (matchId pid : string) : bool :=
  match roster_find s pid with
  | Some rp => String.eqb (rp_match rp) matchId
  | None => false
  end.

(** Modelled from the spec: a player's base credit cost, in hundredths. *)
Definition cost_of (s : Server) (pid : string) : Z :=
  match roster_find s pid with
  | Some rp => rp_cost rp
  | None => 0
  end.

(** Modelled from the spec: the sum of base credit costs (4.1, check 3). *)
Definition total_cost (s : Server) (ids : list string) : Z :=
  fold_right (fun pid acc => cost_of s pid + acc) 0 ids.

(** Modelled from the spec: [validateTeam] of section 4.1, with its three
    checks in the stated order. The captain and the vice-captain are the
    players the payload flags. *)
Definition validateTeam (s : Server) (payload : TeamPayload) : option TeamRejection :=
  let ids := map player_id (Api.players payload) in
  let captains := List.filter is_captain (Api.players payload) in
  let vices := List.filter is_vice_captain (Api.players payload) in
  if negb ((List.length ids =? 11)%nat && distinct ids) then Some NotElevenDistinct
  else if negb (forallb (in_match s (Api.match_id payload)) ids) then Some NotInMatch
  else
    match captains, vices with
    | [c], [v] =>
        if String.eqb (player_id c) (player_id v) then Some BadCaptain
        else if 10000 <? total_cost s ids then Some OverBudget
        else None
    | _, _ => Some BadCaptain
    end.

(** Modelled from the spec: the identity of a new team; the spec leaves
    the scheme open, this model numbers the teams. *)
Definition fresh_team_id (s : Server) : string :=
  "team-" ++ NilEmpty.string_of_uint (Nat.to_uint (List.length (teams s))).

(** Modelled from the spec: team creation stores a team that passed
    [validateTeam] and answers with its id; a rejected team changes
    nothing. *)
Definition createTeam (user : string) (payload : TeamPayload) (s : Server)
  : Server * (HttpError + TeamData) :=
  match validateTeam s payload with
  | Some r => (s, inl {| detail := Some (team_rejection_text r) |})
  | None =>
      let tid := fresh_team_id s in
      let t := {| t_id := tid; t_owner := user;
                  t_match := Api.match_id payload;
                  t_name := team_name payload;
                  t_members := Api.players payload |} in
      (mkServer (roster s) (contests s) (teams s ++ [t]) (entries s)
                (balances s) (transactions s),
       inr {| Api.id := tid |})
  end.

(** Modelled from the spec: the failure reasons of section 4.3, and the
    two lookups that can fail before them. *)
Inductive JoinRejection :=
| ContestNotFound
| TeamNotFound
| ContestNotOpen
| ContestFull
| DuplicateEntry
| InsufficientBalance.

(** Modelled from the spec: the reason as reported to the caller; the
    wording is this model's. *)
Definition join_rejection_text (r : JoinRejection) : string :=
  match r with
  | ContestNotFound => "Contest not found"
  | TeamNotFound => "Team not found"
  | ContestNotOpen => "Contest is not open"
  | ContestFull => "Contest is full"
  | DuplicateEntry => "Already joined this contest"
  | InsufficientBalance => "Insufficient balance"
  end.

(** Modelled from the spec: a user's wallet balance (section 3). *)
Definition balance_of (s : Server) (user : string) : Z :=
  match find (fun kv => String.eqb (fst kv) user) (balances s) with
  | Some kv => snd kv
  | None => 0
  end.

(** Modelled from the spec: step (c) of section 4.3 on the balance. *)
Fixpoint debit (user : string) (amount : Z) (bs : list (string * Z))
  : list (string * Z) :=
  match bs with
  | [] => []
  | (u, b) :: rest =>
      if String.eqb u user then (u, b - amount) :: rest
      else (u, b) :: debit user amount rest
  end.

(** Modelled from the spec: step (d) of section 4.3. *)
Fixpoint bump_joined (cid : string) (cs : list Contest) : list Contest :=
  match cs with
  | [] => []
  | c :: rest =>
      if String.eqb (Contests.id c) cid
      then mkContest (Contests.id c) (Contests.match_id c) (Contests.name c)
                     (status c) (entry_fee c) (prize_pool c) (max_users c)
                     (joined_users c + 1) :: rest
      else c :: bump_joined cid rest
  end.

(** Modelled from the spec: contest read access by id. *)
Definition find_contest (s : Server) (cid : string) : option Contest :=
  find (fun c => String.eqb (Contests.id c) cid) (contests s).

(** Modelled from the spec: the team named in a join is a stored team of
    the user ("a validated team", section 4.3). *)
Definition owns_team (s : Server) (user tid : string) : bool :=
  existsb (fun t => String.eqb (t_id t) tid && String.eqb (t_owner t) user) (teams s).

(** Modelled from the spec: an entry of the same user in the same contest
    exists (section 3, "Contest Entry"). *)
Definition has_entry (s : Server) (user cid : string) : bool :=
  existsb (fun e => String.eqb (e_user e) user && String.eqb (e_contest e) cid)
          (entries s).

(** Modelled from the spec: the pre-conditions (a) and (b) of section 4.3
    with its failure reasons. *)
Definition join_check (user cid : string) (payload : JoinPayload) (s : Server)
  : JoinRejection + Contest :=
  match find_contest s cid with
  | None => inl ContestNotFound
  | Some c =>
      if negb (owns_team s user (team_id payload)) then inl TeamNotFound
      else if negb (String.eqb (status c) "open") then inl ContestNotOpen
      else if negb (joined_users c <? max_users c) then inl ContestFull
      else if has_entry s user cid then inl DuplicateEntry
      else if balance_of s user <? entry_fee c then inl InsufficientBalance
      else inr c
  end.

(** Modelled from the spec: [joinContest] of section 4.3. When the checks
    pass, steps (c), (d) and (e) happen together; otherwise nothing
    changes. *)
Definition joinContest (user cid : string) (payload : JoinPayload) (s : Server)
  : Server * (HttpError + unit) :=
  match join_check user cid payload s with
  | inl r => (s, inl {| detail := Some (join_rejection_text r) |})
  | inr c =>
      (mkServer (roster s)
                (bump_joined cid (contests s))
                (teams s)
                (entries s ++ [{| e_user := user; e_team := team_id payload;
                                  e_contest := cid |}])
                (debit user (entry_fee c) (balances s))
                (transactions s ++ [{| tx_user := user; tx_kind := Debit;
                                       tx_amount := entry_fee c;
                                       tx_reference := cid |}]),
       inr tt)
  end.

(** Modelled from the spec: the two endpoints, for a request authenticated as [user]. *)
Definition api (user : string) : Backend Server :=
  {| post_teams := createTeam user; post_join := joinContest user |}.

(** Modelled from the spec: a request some client makes. *)
Inductive Op :=
| OpCreateTeam (user : string) (payload : TeamPayload)
| OpJoin (user cid : string) (payload : JoinPayload).

(** Modelled from the spec: the server after a request. *)
Definition apply_op (s : Server) (op : Op) : Server :=
  match op with
  | OpCreateTeam user payload => fst (createTeam user payload s)
  | OpJoin user cid payload => fst (joinContest user cid payload s)
  end.

(** Modelled from the spec: the server after a sequence of requests,
    handled one at a time. *)
Definition serve (ops : list Op) (s : Server) : Server :=
  fold_left apply_op ops s.

(** Modelled from the spec: the raw statistics the scoring table of
    section 4.2 refers to. *)
Record RawStats := mkRawStats {
  runs : Z;
  fours : Z;
  sixes : Z;
  wickets : Z;
  maidens : Z;
  catches : Z;
  stumpings : Z;
  run_outs : Z }.

(** Modelled from the spec: a one-time bonus of the scoring table. *)
Definition bonus (cond : bool) (points : Z) : Z := if cond then points else 0.

(** Modelled from the spec: [computePlayerPoints], one summand per row of
    the scoring table of section 4.2. The century bonus comes on top of
    the half-century bonus, as the table says; the two haul bonuses are
    read the same way. *)
Definition computePlayerPoints (st : RawStats) : Z :=
  runs st * 1
  + fours st * 1
  + sixes st * 2
  + bonus (50 <=? runs st) 8
  + bonus (100 <=? runs st) 16
  + wickets st * 25
  + maidens st * 12
  + bonus (3 <=? wickets st) 4
  + bonus (5 <=? wickets st) 8
  + catches st * 8
  + stumpings st * 12
  + run_outs st * 6.

(** Modelled from the spec: the multiplier of section 4.2, an exact
    rational. *)
Definition multiplier (m : PayloadPlayer) : Q :=
  if is_captain m then 2#1
  else if is_vice_captain m then 3#2
  else 1#1.

(** Modelled from the spec: [computeTeamScore] of section 4.2, the sum
    over the team's players of base points times multiplier. *)
Definition computeTeamScore (members : list PayloadPlayer)
           (pointsByPlayer : string -> Z) : Q :=
  fold_right (fun m acc => (inject_Z (pointsByPlayer (player_id m)) * multiplier m + acc)%Q)
             (0#1) members.

End Backend.
(* ================================================================= *)
(** ** Predicates on the state of the team builder *)

Definition selectedIds (st : CreateTeam.State) : list string :=
  map CreateTeam.id (CreateTeam.selectedPlayers st).

(** The designated captain, if any, is among the selected players. *)
Definition captainSelected (st : CreateTeam.State) : bool :=
  match CreateTeam.captain st with
  | Some c => CreateTeam.isSelected st c
  | None => true
  end.

Definition viceCaptainSelected (st : CreateTeam.State) : bool :=
  match CreateTeam.viceCaptain st with
  | Some v => CreateTeam.isSelected st v
  | None => true
  end.

Definition selectionOk (st : CreateTeam.State) : Prop :=
  (List.length (CreateTeam.selectedPlayers st) <= 11)%nat /\ NoDup (selectedIds st).


(** The exact cost, in half credits, of a list of prices given in half
    credits. *)
Definition sumZ (l : list Z) : Z := fold_right Z.add 0 l.

(** The toasts [handleSubmit] shows for its own two checks. *)
Definition sizeToast : Api.Toast :=
  {| Api.title := "Error";
     Api.description := "Select exactly 11 players";
     Api.variant := Some "destructive" |}.

Definition captainToast : Api.Toast :=
  {| Api.title := "Error";
     Api.description := "Select captain and vice-captain";
     Api.variant := Some "destructive" |}.

(** A world that differs from [w] by one more toast. *)
Definition withToast {Server} (t : Api.Toast) (w : Api.World Server)
  : Api.World Server :=
  Api.mkWorld (Api.server w) (Api.sent w) (Api.toasts w ++ [t]) (Api.navigated w).

(** The server after one more stored team. *)
Definition withTeam (t : Backend.Team) (s : Backend.Server) : Backend.Server :=
  Backend.mkServer (Backend.roster s) (Backend.contests s)
                   (Backend.teams s ++ [t]) (Backend.entries s)
                   (Backend.balances s) (Backend.transactions s).

(** The server after [user] joined contest [cid] with team [tid] for
    [fee]: wallet debited, debit recorded, joined count raised, entry
    stored. *)
Definition withJoin (user cid tid : string) (fee : Z) (s : Backend.Server)
  : Backend.Server :=
  Backend.mkServer
    (Backend.roster s)
    (Backend.bump_joined cid (Backend.contests s))
    (Backend.teams s)
    (Backend.entries s ++ [Backend.mkEntry user tid cid])
    (Backend.debit user fee (Backend.balances s))
    (Backend.transactions s ++ [Backend.mkTransaction user Backend.Debit fee cid]).

(** No contest holds more entrants than its maximum. *)
Definition contestsBounded (s : Backend.Server) : Prop :=
  Forall (fun c => Contests.joined_users c <= Contests.max_users c)
         (Backend.contests s).

(** Contest by contest: same id, same maximum, joined count not lower. *)
Definition contestsGrow (before after : list Contests.Contest) : Prop :=
  Forall2 (fun c c' =>
             Contests.id c' = Contests.id c
             /\ Contests.max_users c' = Contests.max_users c
             /\ Contests.joined_users c <= Contests.joined_users c')
          before after.

(** The players of a selection that hold neither designation. *)
Definition undesignated (cid vid : string) (l : list CreateTeam.Player)
  : list CreateTeam.Player :=
  List.filter (fun p => negb (String.eqb cid (CreateTeam.id p))
                        && negb (String.eqb vid (CreateTeam.id p))) l.

Definition sumPoints (pts : string -> Z) (l : list CreateTeam.Player) : Z :=
  fold_right (fun p acc => pts (CreateTeam.id p) + acc) 0 l.

(** Membership of an id in a selection. *)
Definition memberOf (x : string) (l : list CreateTeam.Player) : bool :=
  existsb (fun p => String.eqb x (CreateTeam.id p)) l.

(** The payload entries of a selection whose captain has id [cid] and
    whose vice-captain has id [vid]. *)
Definition flagged (cid vid : string) (l : list CreateTeam.Player) : list Api.PayloadPlayer :=
  map (fun p => {| Api.player_id := CreateTeam.id p;
                   Api.is_captain := String.eqb cid (CreateTeam.id p);
                   Api.is_vice_captain := String.eqb vid (CreateTeam.id p) |}) l.

(** The exact value of a finite number, as a rational. *)
Definition exactValue (x : number) : Q :=
  match x with
  | S754_finite s m e =>
      ((if s then -1 # 1 else 1 # 1) * inject_Z (Zpos m) * Qpower (2 # 1) e)%Q
  | _ => 0%Q
  end.

Definition sumQ (l : list Q) : Q := fold_right Qplus 0%Q l.

(** The invariant of the team builder. *)
Definition pageOk (st : CreateTeam.State) : Prop :=
  selectionOk st /\ captainSelected st = true /\ viceCaptainSelected st = true.

(** A price that is a whole number of half credits, at most 100 credits. *)
Definition halfPriced (p : CreateTeam.Player) : Prop :=
  exists h, 0 <= h <= 200 /\ CreateTeam.base_price p = of_halves h.

(** How many entries of a payload carry a flag. *)
Definition flagCount (flag : Api.PayloadPlayer -> bool) (payload : Api.TeamPayload)
  : nat :=
  List.length (List.filter flag (Api.players payload)).

Definition successToast : Api.Toast :=
  {| Api.title := "Success";
     Api.description := "Team created and contest joined!";
     Api.variant := None |}.

(* ----------------------------------------------------------------- *)
(** *** Sample data *)

Module Sample.

Import CreateTeam.

Definition names : list string :=
  ["p01"; "p02"; "p03"; "p04"; "p05"; "p06"; "p07"; "p08"; "p09"; "p10"; "p11"].

Definition mk (pid : string) (price : number) : Player :=
  mkPlayer pid pid "batsman" "IND" price.

(** Eleven players at the same price. *)
Definition squad (price : number) : list Player :=
  map (fun n => mk n price) names.

(** Eleven players with the given prices in hundredths of a credit. *)
Definition priced (hs : list Z) : list Player :=
  map (fun nh => mk (fst nh) (of_hundredths (snd nh))) (combine names hs).

Definition builder (sel : list Player) (c v : option Player) : State :=
  mkState sel sel c v "My Warriors" false "all".

Definition nine : number := of_halves 18.
Definition ten : number := of_halves 20.

(** A complete team for 99 credits, captain [p01], vice-captain [p02]. *)
Definition goodTeam : State :=
  builder (squad nine) (Some (mk "p01" nine)) (Some (mk "p02" nine)).

(** The same team with [p01] designated twice. *)
Definition sameCaptainTeam : State :=
  builder (squad nine) (Some (mk "p01" nine)) (Some (mk "p01" nine)).

(** A complete team for 110 credits. *)
Definition overBudgetTeam : State :=
  builder (squad ten) (Some (mk "p01" ten)) (Some (mk "p02" ten)).

(** Prices 9.7, 7.1, 10.3, 8.4, 9.8, 10.1, 10.5, 8.4, 9.2, 8.4 and 8.1:
    exactly 100.0 credits. *)
Definition exactHundred : list Z :=
  [970; 710; 1030; 840; 980; 1010; 1050; 840; 920; 840; 810].

Definition exactHundredTeam : State :=
  builder (priced exactHundred)
          (Some (mk "p01" (of_hundredths 970)))
          (Some (mk "p02" (of_hundredths 710))).

(** Two selected players, both designated. *)
Definition pairTeam : State :=
  builder [mk "p01" nine; mk "p02" nine]
          (Some (mk "p01" nine)) (Some (mk "p02" nine)).

Definition rosterOf (cost : Z) : list Backend.RosterPlayer :=
  map (fun n => Backend.mkRosterPlayer n "m1" cost) names.

Definition contest (maxUsers joined : Z) : Contests.Contest :=
  Contests.mkContest "c1" "m1" "Mega" "open" 500 10000 maxUsers joined.

(** A server on which contest [c1] has room. *)
Definition openServer : Backend.Server :=
  Backend.mkServer (rosterOf 900) [contest 2 1] [] [] [("alice", 5000)] [].


(** A server whose roster prices every player at 10 credits. *)
Definition costlyServer : Backend.Server :=
  Backend.mkServer (rosterOf 1000) [contest 2 1] [] [] [("alice", 5000)] [].

Definition world (s : Backend.Server) : Api.World Backend.Server :=
  Api.mkWorld s [] [] [].

(** Eleven players selected out of a roster of twelve. *)
Definition fullHouse : State :=
  mkState (squad nine ++ [mk "p12" nine]) (squad nine)
          (Some (mk "p01" nine)) (Some (mk "p02" nine))
          "My Warriors" false "all".

(** Two answers of the server for the match [m1], the later one last. *)
Definition matchesOfM1 : list Contests.Match :=
  [Contests.mkMatch "m1" "IND" "AUS" (fun _ => Contests.Falsy);
   Contests.mkMatch "m1" "ENG" "PAK" (fun _ => Contests.Falsy)].

(** The statistics of the specification's worked example. *)
Definition exampleStats : Backend.RawStats :=
  Backend.mkRawStats 45 3 1 2 0 1 0 0.

Definition samplePoints (pid : string) : Z :=
  if String.eqb pid "p01" then 108
  else if String.eqb pid "p02" then 40
  else 10.

End Sample.
(* ----------------------------------------------------------------- *)
(** *** Exactness of sums of small dyadic numbers *)

Section DyadicExact.

Lemma nshl_add n a b : nshl (nshl n a) b = nshl n (a + b)%nat.
Proof.
  unfold nshl. rewrite (Nat.add_comm a b). symmetry. apply Nat.iter_add.
Qed.

Lemma digits_nshl n k :
  Zpos (digits2_pos (nshl n k)) = Zpos (digits2_pos n) + Z.of_nat k.
Proof.
  induction k as [|k IH].
  - simpl. lia.
  - change (nshl n (S k)) with (xO (nshl n k)).
    cbn [digits2_pos]. rewrite Pos2Z.inj_succ, IH. lia.
Qed.

Lemma nshl_plus a b k : (nshl a k + nshl b k)%positive = nshl (a + b) k.
Proof.
  induction k as [|k IH]; [reflexivity|].
  change (nshl a (S k)) with (xO (nshl a k)).
  change (nshl b (S k)) with (xO (nshl b k)).
  change (nshl (a + b) (S k)) with (xO (nshl (a + b) k)).
  rewrite <- IH. reflexivity.
Qed.

Lemma shl_align_nshl mx ex ex' :
  ex' <= ex ->
  shl_align mx ex ex' = (nshl mx (Z.to_nat (ex - ex')), ex').
Proof.
  intros Hle. unfold shl_align.
  destruct (ex' - ex) as [|p|p] eqn:E.
  - assert (ex = ex') by lia. subst. rewrite Z.sub_diag. reflexivity.
  - lia.
  - assert (Hd : ex - ex' = Zpos p) by lia. rewrite Hd.
    cbn [Z.to_nat]. rewrite Pos2Nat.inj_iter. reflexivity.
Qed.

Lemma iter_pos_nat {A} (f : A -> A) p : forall x,
  iter_pos f p x = Nat.iter (Pos.to_nat p) f x.
Proof.
  induction p as [p IH|p IH|]; intros x; cbn [iter_pos].
  - rewrite !IH, Pos2Nat.inj_xI.
    replace (S (2 * Pos.to_nat p)) with (Pos.to_nat p + S (Pos.to_nat p))%nat by lia.
    rewrite Nat.iter_add, Nat.iter_succ_r. reflexivity.
  - rewrite !IH, Pos2Nat.inj_xO.
    replace (2 * Pos.to_nat p)%nat with (Pos.to_nat p + Pos.to_nat p)%nat by lia.
    rewrite Nat.iter_add. reflexivity.
  - reflexivity.
Qed.

Lemma shr_1_nshl n i j :
  Nat.iter j shr_1 (Build_shr_record (Zpos (nshl n (i + j))) false false)
  = Build_shr_record (Zpos (nshl n i)) false false.
Proof.
  revert i. induction j as [|j IH]; intros i.
  - rewrite Nat.add_0_r. reflexivity.
  - rewrite Nat.iter_succ_r.
    replace (i + S j)%nat with (S (i + j)) by lia.
    change (nshl n (S (i + j))) with (xO (nshl n (i + j))).
    cbn [shr_1 orb]. apply IH.
Qed.

(** A mantissa of exactly 53 digits is left alone by the rounding step. *)
Lemma binary_round_aux_full s m e :
  Zpos (digits2_pos m) = prec ->
  -1074 <= e <= 971 ->
  binary_round_aux prec emax s (Zpos m) e loc_Exact = S754_finite s m e.
Proof.
  intros Hd He.
  assert (Hf : fexp prec emax (Zpos (digits2_pos m) + e) - e = 0).
  { unfold fexp, SpecFloat.emin, prec, emax in *. lia. }
  unfold binary_round_aux, shr_fexp.
  cbn [Zdigits2 shr_record_of_loc]. rewrite Hf. cbn [shr].
  cbn [shr_m loc_of_shr_record round_nearest_even Zdigits2 shr_record_of_loc].
  rewrite Hf. cbn [shr shr_m].
  replace (e <=? emax - prec) with true; [reflexivity|].
  symmetry. apply Z.leb_le. unfold emax, prec. lia.
Qed.

(** Rounding [n * 2^k] at exponent [e - k] gives the normal form of
    [n * 2^e], whatever the scaling [k]. *)
Lemma binary_round_nshl s n k e :
  Zpos (digits2_pos n) <= prec ->
  -1074 <= Zpos (digits2_pos n) + e - prec <= 971 ->
  binary_round prec emax s (nshl n k) (e - Z.of_nat k) = canon s n e.
Proof.
  intros Hd He. unfold canon, binary_round.
  set (d := Zpos (digits2_pos n)) in *.
  assert (Hfe : fexp prec emax (Zpos (digits2_pos (nshl n k)) + (e - Z.of_nat k))
                = d + e - prec).
  { rewrite digits_nshl. fold d. unfold fexp, SpecFloat.emin, prec, emax in *. lia. }
  rewrite Hfe.
  destruct (Z_le_gt_dec (d + e - prec) (e - Z.of_nat k)) as [Hle|Hgt].
  - rewrite shl_align_nshl by exact Hle.
    rewrite nshl_add.
    replace (k + Z.to_nat (e - Z.of_nat k - (d + e - prec)))%nat
      with (Z.to_nat (prec - d)) by (unfold prec in *; lia).
    apply binary_round_aux_full.
    + rewrite digits_nshl. fold d. unfold prec in *. lia.
    + unfold prec in *. lia.
  - assert (Hal : shl_align (nshl n k) (e - Z.of_nat k) (d + e - prec)
                  = (nshl n k, e - Z.of_nat k)).
    { unfold shl_align.
      destruct (d + e - prec - (e - Z.of_nat k)) eqn:E; try reflexivity. lia. }
    rewrite Hal.
    unfold binary_round_aux at 1, shr_fexp at 1.
    cbn [Zdigits2 shr_record_of_loc]. rewrite Hfe.
    destruct (d + e - prec - (e - Z.of_nat k)) as [|r|r] eqn:E; try lia.
    cbn [shr]. rewrite iter_pos_nat.
    assert (Hit : Nat.iter (Pos.to_nat r) shr_1
                    (Build_shr_record (Zpos (nshl n k)) false false)
                  = Build_shr_record (Zpos (nshl n (Z.to_nat (prec - d)))) false false).
    { rewrite <- (shr_1_nshl n (Z.to_nat (prec - d)) (Pos.to_nat r)).
      replace (Z.to_nat (prec - d) + Pos.to_nat r)%nat with k; [reflexivity|].
      unfold prec in *. lia. }
    rewrite Hit.
    cbn [shr_m loc_of_shr_record round_nearest_even].
    assert (Hd53 : Zpos (digits2_pos (nshl n (Z.to_nat (prec - d)))) = prec).
    { rewrite digits_nshl. fold d. unfold prec in *. lia. }
    assert (Hf : fexp prec emax
                   (Zdigits2 (Zpos (nshl n (Z.to_nat (prec - d))))
                    + (e - Z.of_nat k + Zpos r))
                 - (e - Z.of_nat k + Zpos r) = 0).
    { cbn [Zdigits2]. rewrite Hd53.
      unfold fexp, SpecFloat.emin, prec, emax in *. lia. }
    unfold shr_fexp. cbn [shr_record_of_loc]. rewrite Hf. cbn [shr shr_m].
    replace (e - Z.of_nat k + Zpos r) with (d + e - prec) by lia.
    replace (d + e - prec <=? emax - prec) with true; [reflexivity|].
    symmetry. apply Z.leb_le. unfold emax, prec in *. lia.
Qed.

Lemma binary_round_canon s n e :
  Zpos (digits2_pos n) <= prec ->
  -1074 <= Zpos (digits2_pos n) + e - prec <= 971 ->
  binary_round prec emax s n e = canon s n e.
Proof.
  intros Hd He.
  pose proof (binary_round_nshl s n 0 e Hd He) as H.
  cbn [nshl Nat.iter nat_rect Z.of_nat] in H.
  rewrite Z.sub_0_r in H. exact H.
Qed.

(** [digits2_pos] counts binary digits. *)
Lemma digits2_size p : digits2_pos p = Pos.size p.
Proof. induction p; cbn; congruence. Qed.

Lemma digits_le_53 p : Zpos p < 2 ^ 53 -> Zpos (digits2_pos p) <= prec.
Proof.
  intros Hlt. rewrite digits2_size.
  pose proof (Pos.size_le p) as Hs.
  apply Pos2Z.pos_le_pos in Hs.
  rewrite Pos2Z.inj_pow in Hs. rewrite (Pos2Z.inj_xO p) in Hs.
  unfold prec.
  destruct (Z_le_gt_dec (Zpos (Pos.size p)) 53) as [|Hgt]; [assumption|exfalso].
  assert (2 ^ 54 <= 2 ^ Zpos (Pos.size p)) by (apply Z.pow_le_mono_r; lia).
  assert (E54 : 2 ^ 54 = 2 * 2 ^ 53) by reflexivity.
  rewrite E54 in *. lia.
Qed.

Lemma digits_ge_1 p : 1 <= Zpos (digits2_pos p).
Proof. lia. Qed.

Lemma of_halves_pos n :
  Zpos n < 2 ^ 53 -> of_halves (Zpos n) = canon false n (-1).
Proof.
  intros Hn. unfold of_halves. cbn [binary_normalize].
  pose proof (digits_le_53 n Hn). pose proof (digits_ge_1 n).
  apply binary_round_canon; unfold prec in *; lia.
Qed.

(** The two operands of a sum or difference of normal forms, brought to
    the smaller of the two exponents. *)
Lemma align_canon a b :
  Zpos a < 2 ^ 53 -> Zpos b < 2 ^ 53 ->
  let da := Zpos (digits2_pos a) in
  let db := Zpos (digits2_pos b) in
  let ez := Z.min (da + -1 - prec) (db + -1 - prec) in
  let K := Z.to_nat (-1 - ez) in
  shl_align (nshl a (Z.to_nat (prec - da))) (da + -1 - prec) ez = (nshl a K, ez)
  /\ shl_align (nshl b (Z.to_nat (prec - db))) (db + -1 - prec) ez = (nshl b K, ez)
  /\ ez = -1 - Z.of_nat K.
Proof.
  intros Ha Hb da db ez K.
  pose proof (digits_le_53 a Ha). pose proof (digits_le_53 b Hb).
  fold da in H. fold db in H0.
  repeat split.
  - rewrite shl_align_nshl by (unfold ez; lia). rewrite nshl_add.
    f_equal. f_equal. unfold K, ez, prec in *. lia.
  - rewrite shl_align_nshl by (unfold ez; lia). rewrite nshl_add.
    f_equal. f_equal. unfold K, ez, prec in *. lia.
  - unfold K, ez, prec in *. lia.
Qed.

(** Adding two half-integers is exact while the sum stays below 2^53
    halves. *)
Lemma add_canon a b :
  Zpos (a + b) < 2 ^ 53 ->
  add (canon false a (-1)) (canon false b (-1)) = canon false (a + b) (-1).
Proof.
  intros Hab.
  assert (Ha : Zpos a < 2 ^ 53) by lia.
  assert (Hb : Zpos b < 2 ^ 53) by lia.
  destruct (align_canon a b Ha Hb) as (Ea & Eb & Ez).
  unfold add, canon at 1 2, SFadd. cbn [cond_Zopp].
  cbv zeta in Ea, Eb, Ez. rewrite Ea, Eb. cbn [fst].
  rewrite <- Pos2Z.inj_add, nshl_plus. cbn [binary_normalize].
  rewrite Ez at 2.
  pose proof (digits_le_53 _ Hab). pose proof (digits_ge_1 (a + b)).
  apply binary_round_nshl; unfold prec in *; lia.
Qed.

(** Subtraction of half-integers is exact as well; the sign tells which
    operand is the larger one. *)
Lemma sub_canon a b :
  Zpos a < 2 ^ 53 -> Zpos b < 2 ^ 53 ->
  sub (canon false a (-1)) (canon false b (-1)) =
  match Pos.compare a b with
  | Eq => S754_zero false
  | Gt => canon false (a - b) (-1)
  | Lt => canon true (b - a) (-1)
  end.
Proof.
  intros Ha Hb.
  destruct (align_canon a b Ha Hb) as (Ea & Eb & Ez).
  unfold sub, canon at 1 2, SFsub. cbn [cond_Zopp].
  cbv zeta in Ea, Eb, Ez. rewrite Ea, Eb. cbn [fst].
  set (K := Z.to_nat (-1 - Z.min (Zpos (digits2_pos a) + -1 - prec)
                                 (Zpos (digits2_pos b) + -1 - prec))) in *.
  destruct (Pos.compare_spec a b) as [Heq|Hlt|Hgt].
  - subst b. rewrite Z.sub_diag. reflexivity.
  - assert (Hd : Zpos (nshl a K) - Zpos (nshl b K) = Zneg (nshl (b - a) K)).
    { assert (Hs : (nshl (b - a) K + nshl a K)%positive = nshl b K).
      { rewrite nshl_plus. f_equal. lia. }
      rewrite <- Hs. lia. }
    rewrite Hd. cbn [binary_normalize]. rewrite Ez.
    assert (Hc : Zpos (b - a) < 2 ^ 53) by lia.
    pose proof (digits_le_53 _ Hc). pose proof (digits_ge_1 (b - a)).
    apply binary_round_nshl; unfold prec in *; lia.
  - assert (Hd : Zpos (nshl a K) - Zpos (nshl b K) = Zpos (nshl (a - b) K)).
    { assert (Hs : (nshl (a - b) K + nshl b K)%positive = nshl a K).
      { rewrite nshl_plus. f_equal. lia. }
      rewrite <- Hs. lia. }
    rewrite Hd. cbn [binary_normalize]. rewrite Ez.
    assert (Hc : Zpos (a - b) < 2 ^ 53) by lia.
    pose proof (digits_le_53 _ Hc). pose proof (digits_ge_1 (a - b)).
    apply binary_round_nshl; unfold prec in *; lia.
Qed.

(** Sums of half-integers, also when one side is zero. *)
Lemma add_of_halves a b :
  0 <= a -> 0 <= b -> a + b < 2 ^ 53 ->
  add (of_halves a) (of_halves b) = of_halves (a + b).
Proof.
  intros Ha Hb Hab.
  destruct a as [|a|a]; [|
    destruct b as [|b|b]; [| |lia] | lia].
  - destruct b as [|b|b]; [reflexivity| |lia].
    rewrite Z.add_0_l, of_halves_pos by lia. reflexivity.
  - rewrite Z.add_0_r, of_halves_pos by lia. reflexivity.
  - rewrite <- Pos2Z.inj_add, !of_halves_pos by lia.
    apply add_canon. lia.
Qed.

(** [100 - t < 0] for a half-integer [t = s/2]: true exactly when
    [s] exceeds 200. *)
Lemma hundred_minus_halves_neg s :
  0 <= s < 2 ^ 53 ->
  ltb (sub (of_Z 100) (of_halves s)) (of_Z 0) = (200 <? s).
Proof.
  intros Hs.
  destruct s as [|n|n]; [reflexivity| |lia].
  rewrite of_halves_pos by lia.
  change (of_Z 100) with (canon false 200 (-1)).
  rewrite sub_canon by lia.
  change (200 <? Zpos n) with
    (match (200 ?= n)%positive with Lt => true | _ => false end).
  destruct (Pos.compare 200 n); reflexivity.
Qed.

End DyadicExact.

(* ================================================================= *)
(** ** The selection kept by [togglePlayer] *)

Section Selection.

Import CreateTeam.

Lemma isSelected_In st p :
  isSelected st p = true <-> In (id p) (selectedIds st).
Proof.
  unfold isSelected, selectedIds.
  destruct (find _ _) as [q|] eqn:E; split; intros H; try discriminate; auto.
  - apply find_some in E. destruct E as [Hin Heq].
    apply String.eqb_eq in Heq. rewrite <- Heq. now apply in_map.
  - exfalso. apply in_map_iff in H. destruct H as (q & Hq & Hin).
    apply (find_none _ _ E) in Hin. rewrite Hq, String.eqb_refl in Hin.
    discriminate.
Qed.

Lemma isSelected_false st p :
  isSelected st p = false <-> ~ In (id p) (selectedIds st).
Proof.
  rewrite <- isSelected_In. destruct (isSelected st p); intuition congruence.
Qed.

Lemma remove_id_not_in x l :
  ~ In x (map id (List.filter (fun p => negb (String.eqb (id p) x)) l)).
Proof.
  intros H. apply in_map_iff in H. destruct H as (q & Hq & Hin).
  apply filter_In in Hin. destruct Hin as [_ Hne].
  rewrite Hq, String.eqb_refl in Hne. discriminate.
Qed.

Lemma remove_id_subset x y l :
  In y (map id (List.filter (fun p => negb (String.eqb (id p) x)) l)) ->
  In y (map id l).
Proof.
  intros H. apply in_map_iff in H. destruct H as (q & Hq & Hin).
  apply filter_In in Hin. destruct Hin as [Hin _].
  apply in_map_iff. eauto.
Qed.

Lemma remove_id_keeps x y l :
  y <> x -> In y (map id l) ->
  In y (map id (List.filter (fun p => negb (String.eqb (id p) x)) l)).
Proof.
  intros Hne H. apply in_map_iff in H. destruct H as (q & Hq & Hin).
  apply in_map_iff. exists q. split; [assumption|].
  apply filter_In. split; [assumption|].
  apply negb_true_iff, String.eqb_neq. congruence.
Qed.

Lemma remove_id_NoDup x l :
  NoDup (map id l) ->
  NoDup (map id (List.filter (fun p => negb (String.eqb (id p) x)) l)).
Proof.
  induction l as [|q l IH]; intros Hnd; cbn [List.filter map]; [constructor|].
  cbn [map] in Hnd. inversion Hnd as [|? ? Hnotin Hnd']; subst.
  destruct (negb (String.eqb (id q) x)); cbn [map]; auto.
  constructor; auto.
  intros Hin. apply Hnotin. eapply remove_id_subset; eauto.
Qed.

Lemma remove_id_absent x l :
  ~ In x (map id l) ->
  List.filter (fun p => negb (String.eqb (id p) x)) l = l.
Proof.
  induction l as [|q l IH]; intros Hn; cbn [List.filter]; [reflexivity|].
  cbn [map In] in Hn.
  destruct (String.eqb_spec (id q) x) as [E|E]; cbn [negb].
  - exfalso. auto.
  - f_equal. apply IH. tauto.
Qed.

Lemma remove_id_length x l :
  NoDup (map id l) -> In x (map id l) ->
  S (List.length (List.filter (fun p => negb (String.eqb (id p) x)) l))
  = List.length l.
Proof.
  induction l as [|q l IH]; intros Hnd Hin; [destruct Hin|].
  cbn [map] in Hnd. inversion Hnd as [|? ? Hnotin Hnd']; subst.
  cbn [List.filter].
  destruct (String.eqb_spec (id q) x) as [E|E]; cbn [negb List.length].
  - subst x. rewrite remove_id_absent by assumption. reflexivity.
  - f_equal. apply IH; [assumption|].
    cbn [map In] in Hin. destruct Hin; [contradiction|assumption].
Qed.

(** What [togglePlayer] does to the list of selected players. *)
Lemma togglePlayer_selected st p :
  selectedPlayers (togglePlayer st p) =
  if isSelected st p then
    List.filter (fun q => negb (String.eqb (id q) (id p))) (selectedPlayers st)
  else if (List.length (selectedPlayers st) <? 11)%nat then
    selectedPlayers st ++ [p]
  else selectedPlayers st.
Proof.
  unfold togglePlayer.
  destruct (isSelected st p).
  - destruct (holds (captain st) p), (holds (viceCaptain st) p); reflexivity.
  - destruct (List.length (selectedPlayers st) <? 11)%nat; reflexivity.
Qed.

Lemma togglePlayer_captain st p :
  captain (togglePlayer st p) =
  if isSelected st p && holds (captain st) p then None else captain st.
Proof.
  unfold togglePlayer.
  destruct (isSelected st p); cbn [andb].
  - destruct (holds (captain st) p), (holds (viceCaptain st) p); reflexivity.
  - destruct (List.length (selectedPlayers st) <? 11)%nat; reflexivity.
Qed.

Lemma togglePlayer_viceCaptain st p :
  viceCaptain (togglePlayer st p) =
  if isSelected st p && holds (viceCaptain st) p then None else viceCaptain st.
Proof.
  unfold togglePlayer.
  destruct (isSelected st p); cbn [andb].
  - destruct (holds (captain st) p), (holds (viceCaptain st) p); reflexivity.
  - destruct (List.length (selectedPlayers st) <? 11)%nat; reflexivity.
Qed.

Lemma togglePlayer_selectionOk st p :
  selectionOk st -> selectionOk (togglePlayer st p).
Proof.
  intros [Hlen Hnd]. unfold selectionOk, selectedIds in *.
  rewrite togglePlayer_selected.
  destruct (isSelected st p) eqn:Esel.
  - split.
    + etransitivity; [apply filter_length_le|assumption].
    + now apply remove_id_NoDup.
  - apply isSelected_false in Esel.
    destruct (Nat.ltb_spec (List.length (selectedPlayers st)) 11).
    + split.
      * rewrite length_app. cbn. lia.
      * rewrite map_app. cbn [map].
        apply NoDup_app; auto.
        -- constructor; [intros []|constructor].
        -- intros x Hx [Hy|[]]. subst. contradiction.
    + split; assumption.
Qed.

Lemma toggles_selectionOk ps : forall st,
  selectionOk st -> selectionOk (fold_left togglePlayer ps st).
Proof.
  induction ps as [|p ps IH]; intros st H; cbn [fold_left]; auto.
  apply IH, togglePlayer_selectionOk, H.
Qed.

Lemma initial_selectionOk : selectionOk initialState.
Proof. split; cbn; [lia|constructor]. Qed.

Lemma togglePlayer_isSelected st p :
  isSelected (togglePlayer st p) p
  = negb (isSelected st p) && (List.length (selectedPlayers st) <? 11)%nat.
Proof.
  destruct (isSelected st p) eqn:Esel; cbn [negb andb].
  - apply isSelected_false. unfold selectedIds.
    rewrite togglePlayer_selected, Esel. apply remove_id_not_in.
  - destruct (List.length (selectedPlayers st) <? 11)%nat eqn:Elen.
    + apply isSelected_In. unfold selectedIds.
      rewrite togglePlayer_selected, Esel, Elen, map_app.
      apply in_or_app. right. now left.
    + apply isSelected_false. unfold selectedIds.
      rewrite togglePlayer_selected, Esel, Elen.
      now apply isSelected_false.
Qed.

Lemma togglePlayer_length st p :
  NoDup (selectedIds st) ->
  List.length (selectedPlayers (togglePlayer st p)) =
  if isSelected st p then Nat.pred (List.length (selectedPlayers st))
  else if (List.length (selectedPlayers st) <? 11)%nat
       then S (List.length (selectedPlayers st))
       else List.length (selectedPlayers st).
Proof.
  intros Hnd. rewrite togglePlayer_selected.
  destruct (isSelected st p) eqn:Esel.
  - apply isSelected_In in Esel.
    rewrite <- (remove_id_length (id p) (selectedPlayers st)) by assumption.
    reflexivity.
  - destruct (List.length (selectedPlayers st) <? 11)%nat; [|reflexivity].
    rewrite length_app. cbn. lia.
Qed.

(** C9. Whatever players [togglePlayer] is called with, one after the
    other from the empty selection, the selection holds at most 11
    players and no player id twice. In every state so reached a further
    toggle of a selected player removes that player (the list gets one
    shorter), a toggle of an unselected player adds it when fewer than 11
    are selected, and changes nothing when 11 are. *)
Theorem togglePlayer_keeps_selection_bounded_and_distinct :
  forall (ps : list Player) (p : Player),
    let st := fold_left togglePlayer ps initialState in
    (List.length (selectedPlayers st) <= 11)%nat
    /\ NoDup (selectedIds st)
    /\ isSelected (togglePlayer st p) p
       = negb (isSelected st p) && (List.length (selectedPlayers st) <? 11)%nat
    /\ List.length (selectedPlayers (togglePlayer st p))
       = (if isSelected st p then Nat.pred (List.length (selectedPlayers st))
          else if (List.length (selectedPlayers st) <? 11)%nat
               then S (List.length (selectedPlayers st))
               else List.length (selectedPlayers st)).
Proof.
  intros ps p st.
  destruct (toggles_selectionOk ps initialState initial_selectionOk) as [Hlen Hnd].
  fold st in Hlen, Hnd.
  repeat split; auto.
  - apply togglePlayer_isSelected.
  - now apply togglePlayer_length.
Qed.

Lemma isSelected_same_id st p q :
  id p = id q -> isSelected st p = isSelected st q.
Proof. unfold isSelected. intros ->. reflexivity. Qed.

Lemma holds_id d p :
  holds d p = true -> exists c, d = Some c /\ id c = id p.
Proof.
  destruct d as [c|]; cbn; [|discriminate].
  intros H. apply String.eqb_eq in H. eauto.
Qed.

Lemma isSelected_after_toggle_other st p c :
  id c <> id p -> isSelected st c = true ->
  isSelected (togglePlayer st p) c = true.
Proof.
  intros Hne Hsel. apply isSelected_In. apply isSelected_In in Hsel.
  unfold selectedIds in *. rewrite togglePlayer_selected.
  destruct (isSelected st p).
  - now apply remove_id_keeps.
  - destruct (List.length (selectedPlayers st) <? 11)%nat; [|assumption].
    rewrite map_app. apply in_or_app. now left.
Qed.

Lemma togglePlayer_captainSelected st p :
  captainSelected st = true -> captainSelected (togglePlayer st p) = true.
Proof.
  unfold captainSelected. rewrite togglePlayer_captain.
  destruct (captain st) as [c|] eqn:Ec; cbn [holds].
  - intros Hsel.
    destruct (String.eqb_spec (id c) (id p)) as [E|E].
    + rewrite <- (isSelected_same_id st c p E), Hsel. reflexivity.
    + rewrite andb_false_r. now apply isSelected_after_toggle_other.
  - intros _. rewrite andb_false_r. reflexivity.
Qed.

Lemma togglePlayer_viceCaptainSelected st p :
  viceCaptainSelected st = true -> viceCaptainSelected (togglePlayer st p) = true.
Proof.
  unfold viceCaptainSelected. rewrite togglePlayer_viceCaptain.
  destruct (viceCaptain st) as [c|] eqn:Ec; cbn [holds].
  - intros Hsel.
    destruct (String.eqb_spec (id c) (id p)) as [E|E].
    + rewrite <- (isSelected_same_id st c p E), Hsel. reflexivity.
    + rewrite andb_false_r. now apply isSelected_after_toggle_other.
  - intros _. rewrite andb_false_r. reflexivity.
Qed.

Lemma toggles_designations ps : forall st,
  captainSelected st = true -> viceCaptainSelected st = true ->
  captainSelected (fold_left togglePlayer ps st) = true
  /\ viceCaptainSelected (fold_left togglePlayer ps st) = true.
Proof.
  induction ps as [|p ps IH]; intros st Hc Hv; cbn [fold_left]; auto.
  apply IH.
  - now apply togglePlayer_captainSelected.
  - now apply togglePlayer_viceCaptainSelected.
Qed.

Lemma captain_cleared st p :
  captainSelected st = true ->
  captain (togglePlayer st p) = if holds (captain st) p then None else captain st.
Proof.
  intros Hc. rewrite togglePlayer_captain.
  destruct (holds (captain st) p) eqn:Eh; [|now rewrite andb_false_r].
  destruct (holds_id _ _ Eh) as (c & Ec & Eid).
  unfold captainSelected in Hc. rewrite Ec in Hc.
  rewrite <- (isSelected_same_id st c p Eid), Hc. reflexivity.
Qed.

Lemma viceCaptain_cleared st p :
  viceCaptainSelected st = true ->
  viceCaptain (togglePlayer st p)
  = if holds (viceCaptain st) p then None else viceCaptain st.
Proof.
  intros Hc. rewrite togglePlayer_viceCaptain.
  destruct (holds (viceCaptain st) p) eqn:Eh; [|now rewrite andb_false_r].
  destruct (holds_id _ _ Eh) as (c & Ec & Eid).
  unfold viceCaptainSelected in Hc. rewrite Ec in Hc.
  rewrite <- (isSelected_same_id st c p Eid), Hc. reflexivity.
Qed.

(** C10. From a state in which the captain and the vice-captain are each
    null or (by id) among the selected players, every sequence of
    [togglePlayer] calls leads to such a state again; and there a toggle
    of the player who holds a designation clears it, while a toggle of
    any other player leaves it alone. *)
Theorem togglePlayer_keeps_designations_selected :
  forall (st : State) (ps : list Player) (p : Player),
    captainSelected st = true ->
    viceCaptainSelected st = true ->
    let st' := fold_left togglePlayer ps st in
    captainSelected st' = true
    /\ viceCaptainSelected st' = true
    /\ captain (togglePlayer st' p)
       = (if holds (captain st') p then None else captain st')
    /\ viceCaptain (togglePlayer st' p)
       = (if holds (viceCaptain st') p then None else viceCaptain st').
Proof.
  intros st ps p Hc Hv st'.
  destruct (toggles_designations ps st Hc Hv) as [Hc' Hv'].
  fold st' in Hc', Hv'.
  repeat split; auto using captain_cleared, viceCaptain_cleared.
Qed.

End Selection.

(* ================================================================= *)
(** ** Submission: [handleSubmit] and the submit button *)

Section Submit.

Import Api.
Import CreateTeam.

Context {Server : Type}.
Variable api : Backend Server.
Variables matchId contestId : string.

(** The three ways [handleSubmit] can go, by its two guards. *)
Lemma handleSubmit_cases st w :
  if negb (List.length (selectedPlayers st) =? 11)%nat then
    handleSubmit matchId contestId api st w = (withToast sizeToast w, inr tt)
  else if isNull (captain st) || isNull (viceCaptain st) then
    handleSubmit matchId contestId api st w = (withToast captainToast w, inr tt)
  else
    exists rest,
      sent (fst (handleSubmit matchId contestId api st w))
      = sent w ++ PostTeams (teamPayload matchId st) :: rest.
Proof.
  unfold handleSubmit.
  destruct (negb (List.length (selectedPlayers st) =? 11)%nat); [reflexivity|].
  destruct (isNull (captain st) || isNull (viceCaptain st)); [reflexivity|].
  unfold tryCatch, bind, api_post_teams.
  destruct (post_teams api (teamPayload matchId st) (server w)) as [s1 [e|t]].
  - exists []. reflexivity.
  - unfold api_post_join. cbn [server sent toasts navigated].
    destruct (post_join api contestId _ s1) as [s2 [e|[]]];
      eexists; cbn; rewrite <- app_assoc; reflexivity.
Qed.

(** The world after the [try] block of [handleSubmit] and its [catch],
    by how the two requests settle. *)
Lemma handleSubmit_requests st w :
  negb (List.length (selectedPlayers st) =? 11)%nat = false ->
  isNull (captain st) || isNull (viceCaptain st) = false ->
  let payload := teamPayload matchId st in
  match post_teams api payload (server w) with
  | (s1, inl e) =>
      handleSubmit matchId contestId api st w
      = (mkWorld s1 (sent w ++ [PostTeams payload])
                 (toasts w ++ [mkToast "Error"
                                 (orElse (detail e) "Failed to create team")
                                 (Some "destructive")])
                 (navigated w), inr tt)
  | (s1, inr t) =>
      let join := mkJoinPayload contestId (Api.id t) in
      match post_join api contestId join s1 with
      | (s2, inl e) =>
          handleSubmit matchId contestId api st w
          = (mkWorld s2 (sent w ++ [PostTeams payload; PostJoin contestId join])
                     (toasts w ++ [mkToast "Error"
                                     (orElse (detail e) "Failed to create team")
                                     (Some "destructive")])
                     (navigated w), inr tt)
      | (s2, inr _) =>
          handleSubmit matchId contestId api st w
          = (mkWorld s2 (sent w ++ [PostTeams payload; PostJoin contestId join])
                     (toasts w ++ [successToast])
                     (navigated w ++ ["/my-contests"]), inr tt)
      end
  end.
Proof.
  intros H1 H2 payload. unfold handleSubmit. rewrite H1, H2.
  unfold tryCatch, bind, api_post_teams. fold payload.
  destruct (post_teams api payload (server w)) as [s1 [e|t]]; [reflexivity|].
  unfold api_post_join. cbn [server sent toasts navigated].
  destruct (post_join api contestId _ s1) as [s2 [e|[]]];
    cbn; rewrite <- app_assoc; reflexivity.
Qed.

(** A disabled submit button reports nothing and sends nothing. *)
Lemma clickSubmit_disabled st w :
  submitDisabled st = true ->
  clickSubmit matchId contestId api st w = (w, inr tt).
Proof. unfold clickSubmit. intros ->. reflexivity. Qed.

(** C4. A candidate team whose number of selected players differs from 11
    is rejected with the error toast [Select exactly 11 players]; no
    request is sent and the server is left as it was. *)
Theorem handleSubmit_rejects_wrong_size :
  forall (st : State) (w : World Server),
    List.length (selectedPlayers st) <> 11%nat ->
    handleSubmit matchId contestId api st w = (withToast sizeToast w, inr tt)
    /\ sent (fst (handleSubmit matchId contestId api st w)) = sent w
    /\ server (fst (handleSubmit matchId contestId api st w)) = server w.
Proof.
  intros st w Hlen.
  pose proof (handleSubmit_cases st w) as H.
  apply Nat.eqb_neq in Hlen. rewrite Hlen in H. cbn [negb] in H.
  rewrite H. repeat split.
Qed.

(** C2, as the code has it. For a candidate team of exactly 11 selected
    players: when the captain or the vice-captain is not designated, the
    team is rejected with [Select captain and vice-captain] and nothing is
    sent; when both are designated, the team is sent for creation, the
    same player holding both designations or not. *)
Theorem handleSubmit_checks_designations_only :
  forall (st : State) (w : World Server),
    List.length (selectedPlayers st) = 11%nat ->
    if isNull (captain st) || isNull (viceCaptain st) then
      handleSubmit matchId contestId api st w = (withToast captainToast w, inr tt)
    else
      exists rest,
        sent (fst (handleSubmit matchId contestId api st w))
        = sent w ++ PostTeams (teamPayload matchId st) :: rest.
Proof.
  intros st w Hlen.
  pose proof (handleSubmit_cases st w) as H.
  apply Nat.eqb_eq in Hlen. rewrite Hlen in H. exact H.
Qed.

(** C5, as the code has it. [handleSubmit] applies two checks, in this
    order: exactly 11 players, then captain and vice-captain both
    designated; it reports the first that fails, so a team failing both
    gets the size reason. A team that passes both is sent for creation
    whatever its credits: the budget is no check of [handleSubmit]. A
    negative [creditsLeft] only disables the submit button, and a click on
    the disabled button reports nothing and sends nothing. *)
Theorem handleSubmit_checks_size_then_designations :
  forall (st : State) (w : World Server),
    (if negb (List.length (selectedPlayers st) =? 11)%nat then
       handleSubmit matchId contestId api st w = (withToast sizeToast w, inr tt)
     else if isNull (captain st) || isNull (viceCaptain st) then
       handleSubmit matchId contestId api st w = (withToast captainToast w, inr tt)
     else
       exists rest,
         sent (fst (handleSubmit matchId contestId api st w))
         = sent w ++ PostTeams (teamPayload matchId st) :: rest)
    /\ (if ltb (creditsLeft st) (of_Z 0) then
          clickSubmit matchId contestId api st w = (w, inr tt)
        else True).
Proof.
  intros st w. split; [apply handleSubmit_cases|].
  destruct (ltb (creditsLeft st) (of_Z 0)) eqn:E; [|exact I].
  apply clickSubmit_disabled. unfold submitDisabled.
  rewrite E. apply orb_true_r.
Qed.

End Submit.

(* ================================================================= *)
(** ** Create team and join contest, against the specified back end *)

Section CreateAndJoin.

Import Api.
Import CreateTeam.
Import Backend.

Lemma createTeam_cases user payload s :
  (exists r, createTeam user payload s
             = (s, inl {| detail := Some (team_rejection_text r) |}))
  \/ (exists t, t_owner t = user
                /\ createTeam user payload s
                   = (withTeam t s, inr {| Api.id := t_id t |})).
Proof.
  unfold createTeam. destruct (validateTeam s payload) as [r|].
  - left. eauto.
  - right. eexists (mkTeam _ _ _ _ _). split; reflexivity.
Qed.

Lemma joinContest_cases user cid payload s :
  (exists r, joinContest user cid payload s
             = (s, inl {| detail := Some (join_rejection_text r) |}))
  \/ (exists c, find_contest s cid = Some c
                /\ Contests.joined_users c < Contests.max_users c
                /\ Contests.entry_fee c <= balance_of s user
                /\ joinContest user cid payload s
                   = (withJoin user cid (team_id payload) (Contests.entry_fee c) s, inr tt)).
Proof.
  unfold joinContest, join_check.
  destruct (find_contest s cid) as [c|] eqn:Ef; [|left; eauto].
  destruct (owns_team s user (team_id payload)); cbn [negb]; [|left; eauto].
  destruct (String.eqb (Contests.status c) "open"); cbn [negb]; [|left; eauto].
  destruct (Z.ltb_spec (Contests.joined_users c) (Contests.max_users c)); cbn [negb]; [|left; eauto].
  destruct (has_entry s user cid); [left; eauto|].
  destruct (Z.ltb_spec (balance_of s user) (Contests.entry_fee c)); [left; eauto|].
  right. exists c. repeat split; auto.
Qed.


(* ----------------------------------------------------------------- *)
(** *** Joined counts *)

Lemma bump_joined_grow cid cs : contestsGrow cs (bump_joined cid cs).
Proof.
  unfold contestsGrow.
  induction cs as [|c cs IH]; cbn [bump_joined]; [constructor|].
  destruct (String.eqb (Contests.id c) cid).
  - constructor.
    + cbn. repeat split; lia.
    + clear IH. induction cs; constructor; auto. repeat split; lia.
  - constructor; auto. repeat split; lia.
Qed.

Lemma contestsGrow_refl cs : contestsGrow cs cs.
Proof. induction cs; constructor; auto. repeat split; lia. Qed.

Lemma contestsGrow_trans a b c :
  contestsGrow a b -> contestsGrow b c -> contestsGrow a c.
Proof.
  unfold contestsGrow. intros Hab. revert c.
  induction Hab as [|x y a b (H1 & H2 & H3) Hab IH]; intros c Hbc;
    inversion Hbc as [|? z ? c' (K1 & K2 & K3) Hbc']; subst; constructor.
  - repeat split; try congruence. lia.
  - apply IH. assumption.
Qed.

Lemma bump_joined_bounded cid cs c :
  find (fun c => String.eqb (Contests.id c) cid) cs = Some c ->
  Contests.joined_users c < Contests.max_users c ->
  Forall (fun c => Contests.joined_users c <= Contests.max_users c) cs ->
  Forall (fun c => Contests.joined_users c <= Contests.max_users c) (bump_joined cid cs).
Proof.
  intros Hf Hlt Hall.
  induction Hall as [|x cs Hx Hall IH]; cbn [bump_joined find] in *; [constructor|].
  destruct (String.eqb (Contests.id x) cid).
  - injection Hf as ->. constructor; [cbn; lia|assumption].
  - constructor; auto.
Qed.

Lemma apply_op_contests s op :
  contestsBounded s ->
  contestsBounded (apply_op s op)
  /\ contestsGrow (contests s) (contests (apply_op s op)).
Proof.
  intros Hb. destruct op as [user payload|user cid payload]; cbn [apply_op].
  - destruct (createTeam_cases user payload s) as [(r & E)|(t & _ & E)];
      rewrite E; cbn [fst]; split; auto using contestsGrow_refl.
  - destruct (joinContest_cases user cid payload s)
      as [(r & E)|(c & Ef & Hlt & _ & E)]; rewrite E; cbn [fst].
    + split; auto using contestsGrow_refl.
    + split.
      * unfold contestsBounded, withJoin. cbn [contests].
        eapply bump_joined_bounded; eauto.
      * apply bump_joined_grow.
Qed.

Lemma serve_contests ops : forall s,
  contestsBounded s ->
  contestsBounded (serve ops s)
  /\ contestsGrow (contests s) (contests (serve ops s)).
Proof.
  induction ops as [|op ops IH]; intros s Hb; cbn [serve fold_left].
  - split; auto using contestsGrow_refl.
  - destruct (apply_op_contests s op Hb) as [Hb1 Hg1].
    destruct (IH _ Hb1) as [Hb2 Hg2].
    split; [assumption|]. eapply contestsGrow_trans; eauto.
Qed.

(** C8. Starting from contests none of which holds more entrants than
    its maximum, after any sequence of team creations and contest joins
    (successful or rejected, by any users) every contest has kept its
    maximum, its joined count has not gone down, it does not exceed the
    maximum, and the lobby's [spotsLeft] is not negative. *)
Theorem joined_count_monotone_and_bounded :
  forall (s : Server) (ops : list Op),
    contestsBounded s ->
    contestsGrow (contests s) (contests (serve ops s))
    /\ Forall (fun c => Contests.joined_users c <= Contests.max_users c
                        /\ 0 <= Contests.spotsLeft c)
              (contests (serve ops s)).
Proof.
  intros s ops Hb.
  destruct (serve_contests ops s Hb) as [Hb' Hg].
  split; [assumption|].
  unfold contestsBounded in Hb'.
  eapply Forall_impl; [|exact Hb'].
  intros c Hc. unfold Contests.spotsLeft. cbn beta in *. lia.
Qed.

End CreateAndJoin.

(* ================================================================= *)
(** ** The budget test of the submit button *)

Section Budget.

Import CreateTeam.

Lemma fold_add_halves hs : forall acc,
  0 <= acc ->
  Forall (fun h => 0 <= h) hs ->
  acc + sumZ hs < 2 ^ 53 ->
  fold_left add (map of_halves hs) (of_halves acc) = of_halves (acc + sumZ hs).
Proof.
  induction hs as [|h hs IH]; intros acc Hacc Hall Hlt; cbn [map fold_left sumZ fold_right].
  - now rewrite Z.add_0_r.
  - inversion Hall as [|? ? Hh Hall']; subst.
    assert (Hs : 0 <= sumZ hs).
    { clear -Hall'. induction Hall'; cbn [sumZ fold_right]; [lia|].
      fold (sumZ l). lia. }
    cbn [sumZ fold_right] in Hlt. fold (sumZ hs) in Hlt.
    rewrite add_of_halves by lia.
    rewrite IH by (try assumption; lia).
    f_equal. fold (sumZ hs). lia.
Qed.

Lemma totalCredits_prices st :
  totalCredits st = fold_left add (map base_price (selectedPlayers st)) (of_Z 0).
Proof.
  unfold totalCredits. generalize (of_Z 0).
  induction (selectedPlayers st) as [|p l IH]; intros acc; cbn [map fold_left];
    [reflexivity|apply IH].
Qed.

Lemma sumZ_bounds B hs :
  Forall (fun h => 0 <= h <= B) hs ->
  0 <= sumZ hs <= B * Z.of_nat (List.length hs).
Proof.
  induction 1 as [|h hs Hh Hall IH]; cbn [sumZ fold_right List.length]; [lia|].
  fold (sumZ hs). lia.
Qed.

(** The running total of a selection priced in half credits is the exact
    total. *)
Lemma totalCredits_halves st hs :
  map base_price (selectedPlayers st) = map of_halves hs ->
  Forall (fun h => 0 <= h) hs ->
  sumZ hs < 2 ^ 53 ->
  totalCredits st = of_halves (sumZ hs).
Proof.
  intros Hp Hall Hlt.
  rewrite totalCredits_prices, Hp.
  change (of_Z 0) with (of_halves 0).
  rewrite fold_add_halves; auto; lia.
Qed.

(** Where the budget test of the submit button is exact: for a selection
    of 11 players whose prices are whole multiples of half a credit,
    between 0 and 100 credits each, [creditsLeft < 0] holds exactly when
    the exact sum of the prices exceeds 100 credits ([hs] lists the prices
    in half credits). *)
Theorem budget_test_exact_on_half_credits :
  forall (st : State) (hs : list Z),
    List.length (selectedPlayers st) = 11%nat ->
    map base_price (selectedPlayers st) = map of_halves hs ->
    Forall (fun h => 0 <= h <= 200) hs ->
    ltb (creditsLeft st) (of_Z 0) = negb (sumZ hs <=? 200).
Proof.
  intros st hs Hlen Hp Hall.
  assert (Hl : List.length hs = 11%nat).
  { rewrite <- (length_map of_halves), <- Hp, length_map. exact Hlen. }
  pose proof (sumZ_bounds 200 hs Hall) as Hb. rewrite Hl in Hb.
  assert (Hlt : sumZ hs < 2 ^ 53).
  { apply Z.le_lt_trans with (200 * Z.of_nat 11); [lia|reflexivity]. }
  unfold creditsLeft.
  rewrite (totalCredits_halves st hs Hp).
  - rewrite hundred_minus_halves_neg by lia. apply Z.ltb_antisym.
  - eapply Forall_impl; [|exact Hall]. cbn beta. intros; lia.
  - exact Hlt.
Qed.

End Budget.

(* ================================================================= *)
(** ** Scoring, against the specified scoring engine *)

Section Scoring.

Import Api.
Import CreateTeam.
Import Backend.

Lemma memberOf_In x l : memberOf x l = true <-> In x (map id l).
Proof.
  unfold memberOf. rewrite existsb_exists. rewrite in_map_iff.
  split; intros (p & H1 & H2).
  - apply String.eqb_eq in H2. eauto.
  - exists p. split; [assumption|]. apply String.eqb_eq. congruence.
Qed.

Lemma memberOf_notin x l : ~ In x (map id l) -> memberOf x l = false.
Proof.
  intros H. destruct (memberOf x l) eqn:E; [|reflexivity].
  apply memberOf_In in E. contradiction.
Qed.

Lemma score_flagged pts cid vid l :
  NoDup (map id l) -> cid <> vid ->
  (computeTeamScore (flagged cid vid l) pts ==
   (if memberOf cid l then (2#1) * inject_Z (pts cid) else 0)
   + (if memberOf vid l then (3#2) * inject_Z (pts vid) else 0)
   + inject_Z (sumPoints pts (undesignated cid vid l)))%Q.
Proof.
  intros Hnd Hne.
  induction l as [|p l IH].
  - cbn. reflexivity.
  - cbn [map] in Hnd. inversion Hnd as [|? ? Hnotin Hnd']; subst.
    specialize (IH Hnd').
    cbn [flagged map computeTeamScore fold_right player_id].
    fold (flagged cid vid l). fold (computeTeamScore (flagged cid vid l) pts).
    rewrite IH. clear IH.
    unfold multiplier. cbn [is_captain is_vice_captain].
    cbn [memberOf existsb undesignated List.filter].
    fold (memberOf cid l). fold (memberOf vid l). fold (undesignated cid vid l).
    destruct (String.eqb_spec cid (id p)) as [Ec|Ec].
    + subst cid. rewrite (memberOf_notin _ _ Hnotin).
      destruct (String.eqb_spec vid (id p)) as [Ev|Ev]; [congruence|].
      cbn [orb negb andb]. ring.
    + destruct (String.eqb_spec vid (id p)) as [Ev|Ev].
      * subst vid. rewrite (memberOf_notin _ _ Hnotin).
        cbn [orb negb andb]. ring.
      * cbn [orb negb andb sumPoints fold_right].
        fold (sumPoints pts (undesignated cid vid l)).
        rewrite inject_Z_plus. ring.
Qed.

Lemma teamPayload_flagged matchId st c v :
  captain st = Some c -> viceCaptain st = Some v ->
  Api.players (teamPayload matchId st)
  = flagged (id c) (id v) (selectedPlayers st).
Proof.
  intros Hc Hv. unfold teamPayload, flagged. cbn [Api.players].
  rewrite Hc, Hv. reflexivity.
Qed.

(** C6. For the team [handleSubmit] sends, with distinct player ids, a
    captain and a different vice-captain both among the selected players,
    and any base points: the aggregate score is twice the captain's base
    points, plus one and a half times the vice-captain's, plus the base
    points of every other player once. *)
Theorem team_score_multipliers :
  forall (matchId : string) (st : State) (c v : Player) (pts : string -> Z),
    NoDup (selectedIds st) ->
    captain st = Some c ->
    viceCaptain st = Some v ->
    isSelected st c = true ->
    isSelected st v = true ->
    id c <> id v ->
    (computeTeamScore (Api.players (teamPayload matchId st)) pts ==
     (2#1) * inject_Z (pts (id c))
     + (3#2) * inject_Z (pts (id v))
     + inject_Z (sumPoints pts (undesignated (id c) (id v) (selectedPlayers st))))%Q.
Proof.
  intros matchId st c v pts Hnd Hc Hv Hsc Hsv Hne.
  rewrite (teamPayload_flagged matchId st c v Hc Hv).
  rewrite score_flagged by assumption.
  apply isSelected_In in Hsc. apply isSelected_In in Hsv.
  apply memberOf_In in Hsc. apply memberOf_In in Hsv.
  rewrite Hsc, Hsv. reflexivity.
Qed.

(** C7. The statistics of the worked example (45 runs, 3 fours, 1 six,
    2 wickets, 1 catch) score 108 base points: 45 for the runs, 3 and 2
    for the boundaries, 50 for the wickets, 8 for the catch, and no
    half-century bonus. *)
Theorem example_player_scores_108 :
  computePlayerPoints (mkRawStats 45 3 1 2 0 1 0 0) = 108
  /\ computePlayerPoints (mkRawStats 45 3 1 2 0 1 0 0) = 45 + 3 + 2 + 50 + 8
  /\ bonus (50 <=? runs (mkRawStats 45 3 1 2 0 1 0 0)) 8 = 0.
Proof. repeat split. Qed.

End Scoring.

(* ================================================================= *)
(** ** The theorems at sample inputs *)

Section Instances.

Import Api.
Import CreateTeam.
Import Sample.


(** C2, counterexample. Eleven players, [p01] designated both captain and
    vice-captain: the submit button is enabled and [handleSubmit] sends the
    team for creation, [p01] flagged twice. *)
Lemma same_player_twice_is_sent :
  List.length (selectedPlayers sameCaptainTeam) = 11%nat
  /\ captain sameCaptainTeam = viceCaptain sameCaptainTeam
  /\ captain sameCaptainTeam <> None
  /\ submitDisabled sameCaptainTeam = false
  /\ sent (fst (handleSubmit "m1" "c1" (Backend.api "alice") sameCaptainTeam
                             (world openServer)))
     = [PostTeams (teamPayload "m1" sameCaptainTeam)]
  /\ hd_error (Api.players (teamPayload "m1" sameCaptainTeam))
     = Some (mkPayloadPlayer "p01" true true).
Proof.
  vm_compute. repeat split. intros H. discriminate H.
Qed.

(** C3. The code at the failing input: eleven players whose prices, 9.7,
    7.1, 10.3, 8.4, 9.8, 10.1, 10.5, 8.4, 9.2, 8.4 and 8.1 credits, sum to
    exactly 100.0 (the numbers that denote these prices also sum to
    exactly 100), with a captain and a vice-captain designated. The
    running binary64 sum is above 100, [creditsLeft] is negative, the
    submit button is disabled and a click on it sends nothing: a team
    within the budget of 100 credits cannot be submitted. *)
Lemma exact_hundred_is_rejected :
  List.length (selectedPlayers exactHundredTeam) = 11%nat
  /\ map base_price (selectedPlayers exactHundredTeam)
     = map of_hundredths exactHundred
  /\ sumZ exactHundred = 100 * 100
  /\ (sumQ (map exactValue (map of_hundredths exactHundred)) == 100 # 1)%Q
  /\ isNull (captain exactHundredTeam) = false
  /\ isNull (viceCaptain exactHundredTeam) = false
  /\ ltb (creditsLeft exactHundredTeam) (of_Z 0) = true
  /\ submitDisabled exactHundredTeam = true
  /\ clickSubmit "m1" "c1" (Backend.api "alice") exactHundredTeam (world openServer)
     = (world openServer, inr tt).
Proof.
  vm_compute. repeat split.
Qed.

(** Around the budget the test follows the sum: with the last price of the
    team above raised to 8.11 credits (100.01 in all) the button is
    disabled, with 8.09 (99.99 in all) the budget does not disable it. *)
Lemma budget_test_near_hundred :
  sumZ [970; 710; 1030; 840; 980; 1010; 1050; 840; 920; 840; 811] = 10001
  /\ ltb (creditsLeft
            (builder (priced [970; 710; 1030; 840; 980; 1010; 1050; 840; 920;
                              840; 811]) None None))
         (of_Z 0) = true
  /\ sumZ [970; 710; 1030; 840; 980; 1010; 1050; 840; 920; 840; 809] = 9999
  /\ ltb (creditsLeft
            (builder (priced [970; 710; 1030; 840; 980; 1010; 1050; 840; 920;
                              840; 809]) None None))
         (of_Z 0) = false.
Proof.
  vm_compute. repeat split.
Qed.

(** C5, counterexample. Eleven players at 10 credits each, captain and
    vice-captain designated: of the specification's three checks the
    budget is the first to fail. The submit button is disabled and a click
    on it reports nothing; [handleSubmit] itself finds nothing wrong and
    sends the team for creation. *)
Lemma over_budget_gets_no_reason :
  Backend.validateTeam costlyServer (teamPayload "m1" overBudgetTeam)
  = Some Backend.OverBudget
  /\ ltb (creditsLeft overBudgetTeam) (of_Z 0) = true
  /\ submitDisabled overBudgetTeam = true
  /\ clickSubmit "m1" "c1" (Backend.api "alice") overBudgetTeam (world costlyServer)
     = (world costlyServer, inr tt)
  /\ sent (fst (handleSubmit "m1" "c1" (Backend.api "alice") overBudgetTeam
                             (world costlyServer)))
     = [PostTeams (teamPayload "m1" overBudgetTeam)].
Proof.
  vm_compute. repeat split.
Qed.

Lemma handleSubmit_rejects_wrong_size_witness :
  List.length (selectedPlayers pairTeam) <> 11%nat
  /\ sent (fst (handleSubmit "m1" "c1" (Backend.api "alice") pairTeam
                             (world openServer))) = []
  /\ server (fst (handleSubmit "m1" "c1" (Backend.api "alice") pairTeam
                               (world openServer))) = openServer.
Proof.
  assert (H : List.length (selectedPlayers pairTeam) <> 11%nat)
    by (intros E; discriminate E).
  split; [exact H|].
  exact (proj2 (handleSubmit_rejects_wrong_size
                  (Backend.api "alice") "m1" "c1" pairTeam (world openServer) H)).
Defined.

Lemma handleSubmit_checks_designations_only_witness :
  List.length (selectedPlayers sameCaptainTeam) = 11%nat
  /\ exists rest,
       sent (fst (handleSubmit "m1" "c1" (Backend.api "alice") sameCaptainTeam
                               (world openServer)))
       = [] ++ PostTeams (teamPayload "m1" sameCaptainTeam) :: rest.
Proof.
  assert (H : List.length (selectedPlayers sameCaptainTeam) = 11%nat)
    by reflexivity.
  split; [exact H|].
  exact (handleSubmit_checks_designations_only
           (Backend.api "alice") "m1" "c1" sameCaptainTeam (world openServer) H).
Defined.

Lemma team_score_multipliers_witness :
  NoDup (selectedIds goodTeam)
  /\ isSelected goodTeam (mk "p01" nine) = true
  /\ isSelected goodTeam (mk "p02" nine) = true
  /\ (Backend.computeTeamScore (Api.players (teamPayload "m1" goodTeam)) samplePoints
      == (2#1) * inject_Z 108 + (3#2) * inject_Z 40 + inject_Z 90)%Q.
Proof.
  assert (Hnd : NoDup (selectedIds goodTeam)).
  { repeat (constructor;
            [cbn; intros H;
             repeat (destruct H as [H|H]; [discriminate H|]); exact H|]).
    constructor. }
  assert (Hne : id (mk "p01" nine) <> id (mk "p02" nine))
    by (intros E; discriminate E).
  exact (conj Hnd (conj eq_refl (conj eq_refl
           (team_score_multipliers "m1" goodTeam (mk "p01" nine) (mk "p02" nine)
              samplePoints Hnd eq_refl eq_refl eq_refl eq_refl Hne)))).
Defined.

Lemma joined_count_monotone_and_bounded_witness :
  contestsBounded openServer
  /\ Forall (fun c => Contests.joined_users c <= Contests.max_users c
                      /\ 0 <= Contests.spotsLeft c)
            (Backend.contests
               (Backend.serve
                  [Backend.OpCreateTeam "alice" (teamPayload "m1" goodTeam);
                   Backend.OpJoin "alice" "c1" (mkJoinPayload "c1" "team-0");
                   Backend.OpJoin "bob" "c1" (mkJoinPayload "c1" "team-0")]
                  openServer)).
Proof.
  assert (H : contestsBounded openServer).
  { constructor; [|constructor]. intros E. discriminate E. }
  split; [exact H|].
  exact (proj2 (joined_count_monotone_and_bounded openServer _ H)).
Defined.

Lemma togglePlayer_keeps_designations_selected_witness :
  captainSelected pairTeam = true
  /\ viceCaptainSelected pairTeam = true
  /\ captain (togglePlayer (fold_left togglePlayer [mk "p01" nine] pairTeam)
                           (mk "p02" nine)) = None
  /\ viceCaptain (togglePlayer (fold_left togglePlayer [mk "p01" nine] pairTeam)
                               (mk "p02" nine)) = None.
Proof.
  assert (H1 : captainSelected pairTeam = true) by reflexivity.
  assert (H2 : viceCaptainSelected pairTeam = true) by reflexivity.
  destruct (togglePlayer_keeps_designations_selected
              pairTeam [mk "p01" nine] (mk "p02" nine) H1 H2)
    as (_ & _ & Hc & Hv).
  exact (conj H1 (conj H2 (conj Hc Hv))).
Defined.

End Instances.

(* ================================================================= *)
(** ** The team builder as the user drives it *)

Section Page.

Import Api.
Import CreateTeam.

Lemma togglePlayer_full_noop st p :
  isSelected st p = false ->
  (11 <=? List.length (selectedPlayers st))%nat = true ->
  togglePlayer st p = st.
Proof.
  intros Hs Hl. unfold togglePlayer. rewrite Hs.
  apply Nat.leb_le in Hl.
  destruct (Nat.ltb_spec (List.length (selectedPlayers st)) 11); [lia|reflexivity].
Qed.

Lemma dispatch_pageOk st ev : pageOk st -> pageOk (dispatch st ev).
Proof.
  intros (Hs & Hc & Hv).
  destruct ev as [i|i|i|v|v|data]; cbn [dispatch].
  - destruct (nth_error (filteredPlayers st) i) as [player|]; [|exact (conj Hs (conj Hc Hv))].
    destruct (checkboxDisabled st player);
      [exact (conj Hs (conj Hc Hv))|].
    split; [|split].
    + apply togglePlayer_selectionOk; assumption.
    + now apply togglePlayer_captainSelected.
    + now apply togglePlayer_viceCaptainSelected.
  - destruct (nth_error (filteredPlayers st) i) as [player|]; [|exact (conj Hs (conj Hc Hv))].
    destruct (isSelected st player) eqn:E; [|exact (conj Hs (conj Hc Hv))].
    split; [exact Hs|]. split; [exact E|exact Hv].
  - destruct (nth_error (filteredPlayers st) i) as [player|]; [|exact (conj Hs (conj Hc Hv))].
    destruct (isSelected st player) eqn:E; [|exact (conj Hs (conj Hc Hv))].
    split; [exact Hs|]. split; [exact Hc|exact E].
  - exact (conj Hs (conj Hc Hv)).
  - exact (conj Hs (conj Hc Hv)).
  - exact (conj Hs (conj Hc Hv)).
Qed.

Lemma run_pageOk evs : forall st, pageOk st -> pageOk (run evs st).
Proof.
  unfold run. induction evs as [|ev evs IH]; intros st H; cbn [fold_left]; auto.
  apply IH, dispatch_pageOk, H.
Qed.

Lemma initial_pageOk : pageOk initialState.
Proof. split; [apply initial_selectionOk|split; reflexivity]. Qed.

(** X1. Whatever the user does on the page (ticking rows, pressing C and
    VC, switching tabs, renaming the team, players arriving from the
    server), at most 11 players are selected, no player id is selected
    twice, and the captain and the vice-captain are each null or a
    selected player. *)
Theorem page_keeps_selection_and_designations :
  forall (evs : list Event),
    let st := run evs initialState in
    (List.length (selectedPlayers st) <= 11)%nat
    /\ NoDup (selectedIds st)
    /\ captainSelected st = true
    /\ viceCaptainSelected st = true.
Proof.
  intros evs st.
  destruct (run_pageOk evs initialState initial_pageOk) as ((H1 & H2) & H3 & H4).
  repeat split; assumption.
Qed.

(** X2. The checkbox of a row is disabled exactly where [togglePlayer]
    would do nothing: it is disabled if and only if [togglePlayer] on the
    row's player leaves the state as it is, so that ticking a rendered row
    always has the effect of [togglePlayer] on that player. *)
Theorem checkbox_agrees_with_togglePlayer :
  forall (st : State) (i : nat) (player : Player),
    nth_error (filteredPlayers st) i = Some player ->
    (checkboxDisabled st player = true <-> togglePlayer st player = st)
    /\ dispatch st (ToggleRow i)
       = (if checkboxDisabled st player then st else togglePlayer st player)
    /\ dispatch st (ToggleRow i) = togglePlayer st player.
Proof.
  intros st i player H.
  assert (Hiff : checkboxDisabled st player = true <-> togglePlayer st player = st).
  { unfold checkboxDisabled. split.
    - intros Hd. apply andb_true_iff in Hd. destruct Hd as [Hs Hl].
      apply negb_true_iff in Hs. now apply togglePlayer_full_noop.
    - intros Hnoop.
      pose proof (togglePlayer_isSelected st player) as Hsel.
      rewrite Hnoop in Hsel.
      destruct (isSelected st player); cbn [negb andb] in *; [discriminate|].
      destruct (Nat.ltb_spec (List.length (selectedPlayers st)) 11);
        [discriminate|].
      apply Nat.leb_le. assumption. }
  split; [exact Hiff|].
  cbn [dispatch]. rewrite H. split; [reflexivity|].
  destruct (checkboxDisabled st player) eqn:Ed; [|reflexivity].
  symmetry. now apply Hiff.
Qed.

(** X3. Ticking an unselected player and then unticking it restores the
    state, designations included, when fewer than 11 players are selected
    and the designated players are selected ones. *)
Theorem togglePlayer_twice_restores :
  forall (st : State) (p : Player),
    captainSelected st = true ->
    viceCaptainSelected st = true ->
    isSelected st p = false ->
    (List.length (selectedPlayers st) < 11)%nat ->
    togglePlayer (togglePlayer st p) p = st.
Proof.
  intros st p Hc Hv Hs Hl.
  assert (Hhc : holds (captain st) p = false).
  { destruct (holds (captain st) p) eqn:E; [|reflexivity].
    destruct (holds_id _ _ E) as (c & Ec & Eid).
    unfold captainSelected in Hc. rewrite Ec in Hc.
    rewrite (isSelected_same_id st c p Eid) in Hc. congruence. }
  assert (Hhv : holds (viceCaptain st) p = false).
  { destruct (holds (viceCaptain st) p) eqn:E; [|reflexivity].
    destruct (holds_id _ _ E) as (c & Ec & Eid).
    unfold viceCaptainSelected in Hv. rewrite Ec in Hv.
    rewrite (isSelected_same_id st c p Eid) in Hv. congruence. }
  assert (E1 : togglePlayer st p
               = setSelectedPlayers (selectedPlayers st ++ [p]) st).
  { unfold togglePlayer. rewrite Hs.
    apply Nat.ltb_lt in Hl. rewrite Hl. reflexivity. }
  rewrite E1. unfold togglePlayer at 1.
  assert (E2 : isSelected (setSelectedPlayers (selectedPlayers st ++ [p]) st) p = true).
  { apply isSelected_In. unfold selectedIds. cbn [setSelectedPlayers selectedPlayers].
    rewrite map_app. apply in_or_app. right. now left. }
  rewrite E2. cbn [setSelectedPlayers captain viceCaptain selectedPlayers].
  rewrite Hhc, Hhv.
  rewrite filter_app. cbn [List.filter]. rewrite String.eqb_refl. cbn [negb].
  rewrite app_nil_r, remove_id_absent by (now apply isSelected_false).
  destruct st; reflexivity.
Qed.

Lemma flag_count_captain cid vid l :
  NoDup (map id l) ->
  List.length (List.filter is_captain (flagged cid vid l))
  = if memberOf cid l then 1%nat else 0%nat.
Proof.
  induction l as [|p l IH]; intros Hnd; [reflexivity|].
  cbn [map] in Hnd. inversion Hnd as [|? ? Hnotin Hnd']; subst.
  cbn [flagged map List.filter is_captain memberOf existsb].
  fold (flagged cid vid l). fold (memberOf cid l).
  destruct (String.eqb_spec cid (id p)) as [E|E]; cbn [orb List.length].
  - subst cid. rewrite IH by assumption.
    now rewrite (memberOf_notin _ _ Hnotin).
  - now apply IH.
Qed.

Lemma flag_count_vice cid vid l :
  NoDup (map id l) ->
  List.length (List.filter is_vice_captain (flagged cid vid l))
  = if memberOf vid l then 1%nat else 0%nat.
Proof.
  induction l as [|p l IH]; intros Hnd; [reflexivity|].
  cbn [map] in Hnd. inversion Hnd as [|? ? Hnotin Hnd']; subst.
  cbn [flagged map List.filter is_vice_captain memberOf existsb].
  fold (flagged cid vid l). fold (memberOf vid l).
  destruct (String.eqb_spec vid (id p)) as [E|E]; cbn [orb List.length].
  - subst vid. rewrite IH by assumption.
    now rewrite (memberOf_notin _ _ Hnotin).
  - now apply IH.
Qed.

Lemma flagged_ids cid vid l : map player_id (flagged cid vid l) = map id l.
Proof. unfold flagged. rewrite map_map. reflexivity. Qed.

Lemma submit_enabled st :
  submitDisabled st = false ->
  List.length (selectedPlayers st) = 11%nat
  /\ (exists c, captain st = Some c)
  /\ (exists v, viceCaptain st = Some v)
  /\ ltb (creditsLeft st) (of_Z 0) = false.
Proof.
  unfold submitDisabled. intros H.
  apply orb_false_iff in H. destruct H as [H H4].
  apply orb_false_iff in H. destruct H as [H H3].
  apply orb_false_iff in H. destruct H as [H1 H2].
  apply negb_false_iff, Nat.eqb_eq in H1.
  destruct (captain st) as [c|]; [|discriminate].
  destruct (viceCaptain st) as [v|]; [|discriminate].
  eauto 6.
Qed.

Section WithServer.

Context {Server : Type}.
Variable api : Backend Server.
Variables matchId contestId : string.

(** X4. Through the submit button, in any state the user can reach, a
    click either sends nothing, or sends for creation a payload of 11
    entries with pairwise different player ids, exactly one of them
    flagged captain and exactly one flagged vice-captain, and only when
    [creditsLeft] is not negative. *)
Theorem button_sends_only_complete_teams :
  forall (evs : list Event) (w : World Server),
    let st := run evs initialState in
    let w' := fst (clickSubmit matchId contestId api st w) in
    w' = w
    \/ ((exists rest, sent w' = sent w ++ PostTeams (teamPayload matchId st) :: rest)
        /\ List.length (Api.players (teamPayload matchId st)) = 11%nat
        /\ NoDup (map player_id (Api.players (teamPayload matchId st)))
        /\ flagCount is_captain (teamPayload matchId st) = 1%nat
        /\ flagCount is_vice_captain (teamPayload matchId st) = 1%nat
        /\ ltb (creditsLeft st) (of_Z 0) = false).
Proof.
  intros evs w st w'. subst w'.
  destruct (run_pageOk evs initialState initial_pageOk) as ((Hlen & Hnd) & Hc & Hv).
  fold st in Hlen, Hnd, Hc, Hv.
  unfold clickSubmit.
  destruct (submitDisabled st) eqn:Ed; [left; reflexivity|right].
  destruct (submit_enabled st Ed) as (H11 & (c & Ec) & (v & Ev) & Hcr).
  pose proof (handleSubmit_cases api matchId contestId st w) as Hcases.
  rewrite H11, Ec, Ev in Hcases. cbn in Hcases.
  split; [exact Hcases|].
  unfold flagCount.
  rewrite (teamPayload_flagged matchId st c v Ec Ev).
  unfold captainSelected in Hc. rewrite Ec in Hc.
  unfold viceCaptainSelected in Hv. rewrite Ev in Hv.
  apply isSelected_In, memberOf_In in Hc.
  apply isSelected_In, memberOf_In in Hv.
  repeat split.
  - unfold flagged. rewrite length_map. exact H11.
  - rewrite flagged_ids. exact Hnd.
  - rewrite flag_count_captain by exact Hnd. now rewrite Hc.
  - rewrite flag_count_vice by exact Hnd. now rewrite Hv.
  - exact Hcr.
Qed.

End WithServer.

End Page.

(* ================================================================= *)
(** ** More on [handleSubmit] *)

Section SubmitMore.

Import Api.
Import CreateTeam.

Context {Server : Type}.
Variable api : Backend Server.
Variables matchId contestId : string.

Lemma orElse_not_empty x fallback :
  fallback <> EmptyString -> orElse x fallback <> EmptyString.
Proof.
  intros Hf. destruct x as [[|a s]|]; cbn [orElse]; auto. discriminate.
Qed.

Lemma orElse_cases x fallback :
  orElse x fallback
  = match x with
    | Some (String a d) => String a d
    | _ => fallback
    end.
Proof. destruct x as [[|a d]|]; reflexivity. Qed.

(** X5. [handleSubmit] never throws, and every call shows exactly one
    toast, whose description is not empty. The toast is that of the size
    check, that of the designation check, the success toast, or the error
    toast of the request the server rejected: destructive, titled
    [Error], and described by the [detail] of the rejection when it has a
    non-empty one and by [Failed to create team] when the [detail] is
    missing or empty. *)
Theorem handleSubmit_shows_one_toast :
  forall (st : State) (w : World Server),
    let r := handleSubmit matchId contestId api st w in
    let payload := teamPayload matchId st in
    snd r = inr tt
    /\ exists t,
         toasts (fst r) = toasts w ++ [t]
         /\ description t <> EmptyString
         /\ (t = sizeToast \/ t = captainToast \/ t = successToast
             \/ exists e,
                  ((exists s1, post_teams api payload (server w) = (s1, inl e))
                   \/ (exists s1 t0 s2,
                         post_teams api payload (server w) = (s1, inr t0)
                         /\ post_join api contestId
                                      (mkJoinPayload contestId (Api.id t0)) s1
                            = (s2, inl e)))
                  /\ t = mkToast "Error"
                                 (match detail e with
                                  | Some (String a d) => String a d
                                  | _ => "Failed to create team"
                                  end)
                                 (Some "destructive")).
Proof.
  intros st w r payload. subst r payload.
  pose proof (handleSubmit_cases api matchId contestId st w) as Hc.
  destruct (negb (List.length (selectedPlayers st) =? 11)%nat) eqn:E1.
  { rewrite Hc. split; [reflexivity|]. exists sizeToast.
    split; [reflexivity|]. split; [discriminate|now left]. }
  destruct (isNull (captain st) || isNull (viceCaptain st)) eqn:E2.
  { rewrite Hc. split; [reflexivity|]. exists captainToast.
    split; [reflexivity|]. split; [discriminate|now right; left]. }
  clear Hc.
  pose proof (handleSubmit_requests api matchId contestId st w E1 E2) as Hr.
  cbv zeta in Hr.
  destruct (post_teams api (teamPayload matchId st) (server w)) as [s1 [e|t]] eqn:Et.
  - rewrite Hr. split; [reflexivity|]. eexists. split; [reflexivity|].
    split; [apply orElse_not_empty; discriminate|].
    right; right; right. exists e. split; [left; eauto|].
    cbn [description]. now rewrite orElse_cases.
  - destruct (post_join api contestId _ s1) as [s2 [e|u]] eqn:Ej; rewrite Hr.
    + split; [reflexivity|]. eexists. split; [reflexivity|].
      split; [apply orElse_not_empty; discriminate|].
      right; right; right. exists e. split; [right; eauto|].
      now rewrite orElse_cases.
    + split; [reflexivity|]. exists successToast.
      split; [reflexivity|]. split; [discriminate|now right; right; left].
Qed.

(** X6. [handleSubmit] leaves the page only after success: either
    nothing is navigated to, the join request is sent only after a
    successful team creation, and no success toast shows; or the page
    goes to [/my-contests], and then exactly two requests were sent, the
    team creation and a join that names the contest and the id the team
    creation returned, both accepted by the server, and the toast is the
    success toast. *)
Theorem handleSubmit_navigates_only_after_success :
  forall (st : State) (w : World Server),
    let w' := fst (handleSubmit matchId contestId api st w) in
    let payload := teamPayload matchId st in
    (navigated w' = navigated w
     /\ ~ In successToast (skipn (List.length (toasts w)) (toasts w'))
     /\ (sent w' = sent w
         \/ (exists s1 e, post_teams api payload (server w) = (s1, inl e)
                          /\ sent w' = sent w ++ [PostTeams payload])
         \/ (exists s1 t, post_teams api payload (server w) = (s1, inr t)
                          /\ sent w' = sent w
                               ++ [PostTeams payload;
                                   PostJoin contestId
                                            (mkJoinPayload contestId (Api.id t))])))
    \/ (navigated w' = navigated w ++ ["/my-contests"]
        /\ toasts w' = toasts w ++ [successToast]
        /\ exists s1 t s2,
             post_teams api payload (server w) = (s1, inr t)
             /\ post_join api contestId (mkJoinPayload contestId (Api.id t)) s1
                = (s2, inr tt)
             /\ server w' = s2
             /\ sent w' = sent w
                  ++ [PostTeams payload;
                      PostJoin contestId (mkJoinPayload contestId (Api.id t))]).
Proof.
  intros st w w' payload. subst w' payload.
  pose proof (handleSubmit_cases api matchId contestId st w) as Hc.
  assert (Hskip : forall (l : list Toast) t,
             t <> successToast ->
             ~ In successToast (skipn (List.length l) (l ++ [t]))).
  { intros l t Hne. rewrite skipn_app, skipn_all, Nat.sub_diag. cbn.
    intros [H|[]]. contradiction. }
  destruct (negb (List.length (selectedPlayers st) =? 11)%nat) eqn:E1.
  { rewrite Hc. left. cbn [fst withToast navigated sent toasts].
    split; [reflexivity|]. split; [apply Hskip; discriminate|now left]. }
  destruct (isNull (captain st) || isNull (viceCaptain st)) eqn:E2.
  { rewrite Hc. left. cbn [fst withToast navigated sent toasts].
    split; [reflexivity|]. split; [apply Hskip; discriminate|now left]. }
  clear Hc. pose proof (handleSubmit_requests api matchId contestId st w E1 E2) as Hr. cbv zeta in Hr.
  destruct (post_teams api (teamPayload matchId st) (server w)) as [s1 [e|t]] eqn:Et.
  - rewrite Hr. left. cbn [fst navigated sent toasts].
    split; [reflexivity|]. split; [apply Hskip; discriminate|].
    right. left. eauto.
  - destruct (post_join api contestId _ s1) as [s2 [e|[]]] eqn:Ej; rewrite Hr.
    + left. cbn [fst navigated sent toasts].
      split; [reflexivity|]. split; [apply Hskip; discriminate|].
      right. right. eauto.
    + right. cbn [fst navigated sent toasts server].
      split; [reflexivity|]. split; [reflexivity|].
      exists s1, t, s2. repeat split; assumption.
Qed.

End SubmitMore.

(* ================================================================= *)
(** ** The lobby, the landing page, the navigation bar, the session *)

Section Lobby.

Import Contests.

Lemma find_append {A} (f : A -> bool) l l' :
  find f (l ++ l')
  = match find f l with Some x => Some x | None => find f l' end.
Proof.
  induction l as [|a l IH]; cbn [app find]; [reflexivity|].
  destruct (f a); [reflexivity|apply IH].
Qed.

Lemma find_never {A} (f : A -> bool) l :
  (forall x, f x = false) -> find f l = None.
Proof.
  intros H. induction l as [|a l IH]; cbn [find]; [reflexivity|].
  now rewrite H.
Qed.

Lemma find_same {A} (f g : A -> bool) l :
  (forall x, f x = g x) -> find f l = find g l.
Proof.
  intros H. induction l as [|a l IH]; cbn [find]; [reflexivity|].
  now rewrite H, IH.
Qed.

Lemma own_fold key ms : forall acc,
  ownProperty key (own (fold_left (fun acc m => assign (m_id m) m acc) ms acc))
  = match find (fun m => String.eqb (m_id m) key
                         && negb (String.eqb (m_id m) "__proto__")) (rev ms) with
    | Some m => Some m
    | None => ownProperty key (own acc)
    end.
Proof.
  induction ms as [|m ms IH]; intros acc; cbn [fold_left rev find]; [reflexivity|].
  rewrite IH, find_append.
  destruct (find _ (rev ms)); [reflexivity|].
  cbn [find]. unfold assign.
  destruct (String.eqb (m_id m) "__proto__"); cbn [own ownProperty negb].
  - rewrite andb_false_r. reflexivity.
  - rewrite andb_true_r. destruct (String.eqb (m_id m) key); reflexivity.
Qed.

Lemma proto_fold ms : forall acc,
  proto (fold_left (fun acc m => assign (m_id m) m acc) ms acc)
  = match find (fun m => String.eqb (m_id m) "__proto__") (rev ms) with
    | Some p => Some p
    | None => proto acc
    end.
Proof.
  induction ms as [|m ms IH]; intros acc; cbn [fold_left rev find]; [reflexivity|].
  rewrite IH, find_append.
  destruct (find _ (rev ms)); [reflexivity|].
  cbn [find]. unfold assign.
  destruct (String.eqb (m_id m) "__proto__"); reflexivity.
Qed.

Lemma lookup_matchesMap ms key :
  lookup key (matchesMap ms)
  = match (if String.eqb key "__proto__" then None
           else find (fun m => String.eqb (m_id m) key) (rev ms)) with
    | Some m => ofMatch m
    | None =>
        match find (fun m => String.eqb (m_id m) "__proto__") (rev ms) with
        | Some p => if String.eqb key "__proto__" then ofMatch p else m_get p key
        | None => if inherited key then Truthy None None else Falsy
        end
    end.
Proof.
  unfold lookup, matchesMap. rewrite own_fold, proto_fold.
  cbn [emptyMap own proto ownProperty].
  destruct (String.eqb_spec key "__proto__") as [E|E].
  - subst key. rewrite find_never.
    + destruct (find _ (rev ms)); reflexivity.
    + intros x. destruct (String.eqb (m_id x) "__proto__"); reflexivity.
  - rewrite (find_same _ (fun m => String.eqb (m_id m) key)).
    + destruct (find (fun m => String.eqb (m_id m) key) (rev ms)); [reflexivity|].
      destruct (find _ (rev ms)); reflexivity.
    + intros x. destruct (String.eqb_spec (m_id x) key) as [K|K]; [|reflexivity].
      destruct (String.eqb_spec (m_id x) "__proto__"); [congruence|reflexivity].
Qed.

(** X7. In the object [fetchData] builds from the matches of the server,
    an id other than [__proto__] reads the last match of the response
    that carries it. Failing that, or for the id [__proto__]: when a
    match of the response has the id [__proto__], the last such match has
    become the object's prototype and the read goes to it; otherwise the
    id reads a member every object inherits when it names one, and
    nothing when it does not. *)
Theorem matchesMap_finds_last :
  forall (ms : list Match) (key : string),
    lookup key (matchesMap ms)
    = match (if String.eqb key "__proto__" then None
             else find (fun m => String.eqb (m_id m) key) (rev ms)) with
      | Some m => ofMatch m
      | None =>
          match find (fun m => String.eqb (m_id m) "__proto__") (rev ms) with
          | Some p => if String.eqb key "__proto__" then ofMatch p else m_get p key
          | None => if inherited key then Truthy None None else Falsy
          end
      end.
Proof.
  intros ms key. apply lookup_matchesMap.
Qed.

(** X8. After a [fetchData] in which both requests succeeded, whatever
    was loaded before, the card of a contest whose [match_id] is not
    [__proto__] names the two teams of the last match of the response
    with that id. Without such a match, and without a match whose id is
    [__proto__], it reads [undefined vs undefined] when the [match_id]
    names a member every object inherits, and [Loading match...]
    otherwise; with a match whose id is [__proto__], it shows what the
    read through that match object yields. *)
Theorem card_names_the_match :
  forall (cs : list Contest) (ms : list Match) (st : State) (c : Contest),
    match_id c <> "__proto__" ->
    cardDescription (fetchData (inr cs) (inr ms) st) c
    = match find (fun m => String.eqb (m_id m) (match_id c)) (rev ms) with
      | Some m => (team1 m ++ " vs " ++ team2 m)%string
      | None =>
          match find (fun m => String.eqb (m_id m) "__proto__") (rev ms) with
          | Some p =>
              match m_get p (match_id c) with
              | Truthy t1 t2 => (interpolate t1 ++ " vs " ++ interpolate t2)%string
              | Falsy => "Loading match..."
              end
          | None =>
              if inherited (match_id c) then "undefined vs undefined"
              else "Loading match..."
          end
      end.
Proof.
  intros cs ms st c Hne.
  unfold cardDescription, fetchData. cbn [matches].
  rewrite lookup_matchesMap.
  apply String.eqb_neq in Hne. rewrite Hne.
  destruct (find _ (rev ms)) as [m|]; [reflexivity|].
  destruct (find _ (rev ms)) as [p|]; [reflexivity|].
  destruct (inherited (match_id c)); reflexivity.
Qed.

(** X9. The landing page features the first three contests of the
    server's list, all of them when there are fewer, in the server's
    order; the section shows exactly when the list is not empty. *)
Theorem landing_features_first_three :
  forall (data old : list Contest),
    let featured := Landing.fetchFeaturedContests (inr data) old in
    List.length featured = Nat.min 3 (List.length data)
    /\ (exists rest, data = featured ++ rest)
    /\ Landing.showsFeatured featured = negb (Nat.eqb (List.length data) 0).
Proof.
  intros data old featured. subst featured. cbn [Landing.fetchFeaturedContests].
  split; [apply length_firstn|].
  split; [exists (skipn 3 data); symmetry; apply firstn_skipn|].
  unfold Landing.showsFeatured. rewrite length_firstn.
  destruct data as [|a [|b [|c l]]]; reflexivity.
Qed.

(** X10. Of the four links of the navigation bar at most one is active:
    exactly one when the current path is the target of a link, none on
    any other path. *)
Theorem navbar_highlights_at_most_one :
  forall (pathname : string),
    List.length (List.filter (Navbar.isActive pathname) Navbar.links)
    = if existsb (String.eqb pathname) Navbar.links then 1%nat else 0%nat.
Proof.
  intros pathname. unfold Navbar.links, Navbar.isActive.
  cbn [List.filter existsb].
  destruct (String.eqb_spec pathname "/") as [E|E];
    [subst; reflexivity|].
  destruct (String.eqb_spec pathname "/contests") as [E1|E1];
    [subst; reflexivity|].
  destruct (String.eqb_spec pathname "/my-contests") as [E2|E2];
    [subst; reflexivity|].
  destruct (String.eqb_spec pathname "/wallet") as [E3|E3];
    [subst; reflexivity|reflexivity].
Qed.

End Lobby.

Section Session.

Import AuthContext.

Lemma dispatch_unsuccessful st ev :
  unsuccessful ev = true ->
  isAuthenticated st = false ->
  isAuthenticated (dispatch st ev) = false.
Proof.
  unfold isAuthenticated.
  destruct ev as [[e|u]|[e|c]|[e|c]| |[e|u]];
    cbn [unsuccessful]; try discriminate; intros _ H;
    cbn [dispatch mount fetchProfile login register logout fst currentUser];
    try assumption; try reflexivity.
  unfold mount. destruct (auth_token st) as [[|a t]|];
    cbn [fetchProfile currentUser]; assumption.
Qed.

(** X11. Nobody becomes authenticated without a successful answer from
    the server: from a provider without a user, any sequence of rejected
    logins, registrations and profile requests, and of logouts, ends
    without a user, whatever token the browser had stored. *)
Theorem no_authentication_without_success :
  forall (stored : option string) (evs : list Event),
    forallb unsuccessful evs = true ->
    isAuthenticated (run evs (initialState stored)) = false.
Proof.
  intros stored evs.
  assert (G : forall st, isAuthenticated st = false ->
                         forallb unsuccessful evs = true ->
                         isAuthenticated (run evs st) = false).
  { unfold run. induction evs as [|ev evs IH]; intros st Hst Hall; cbn [fold_left]; auto.
    cbn [forallb] in Hall. apply andb_true_iff in Hall. destruct Hall as [H1 H2].
    apply IH; [|assumption]. now apply dispatch_unsuccessful. }
  apply G. reflexivity.
Qed.

(** X12. After a logout nobody is authenticated and no token is stored,
    and rejected requests that follow bring neither back. *)
Theorem logout_clears_session :
  forall (st : State) (evs : list Event),
    forallb unsuccessful evs = true ->
    let st' := run evs (logout st) in
    isAuthenticated st' = false /\ auth_token st' = None.
Proof.
  intros st evs.
  assert (G : forall s, isAuthenticated s = false -> auth_token s = None ->
                        forallb unsuccessful evs = true ->
                        isAuthenticated (run evs s) = false
                        /\ auth_token (run evs s) = None).
  { unfold run. induction evs as [|ev evs IH]; intros s Hs Ht Hall; cbn [fold_left]; auto.
    cbn [forallb] in Hall. apply andb_true_iff in Hall. destruct Hall as [H1 H2].
    apply IH; [| |assumption].
    - now apply dispatch_unsuccessful.
    - destruct ev as [[e|u]|[e|c]|[e|c]| |[e|u]];
        cbn [unsuccessful] in H1; try discriminate;
        cbn [dispatch mount fetchProfile login register logout fst auth_token];
        try assumption; try reflexivity.
      unfold mount. rewrite Ht. reflexivity. }
  intros Hall. apply G; auto.
Qed.

End Session.

(* ================================================================= *)
(** ** Credits of selections priced in half credits *)

Section Credits.

Import CreateTeam.

Lemma of_halves_neg n :
  Zpos n < 2 ^ 53 -> of_halves (Zneg n) = canon true n (-1).
Proof.
  intros Hn. unfold of_halves. cbn [binary_normalize].
  pose proof (digits_le_53 n Hn). pose proof (digits_ge_1 n).
  apply binary_round_canon; unfold prec in *; lia.
Qed.

Lemma hundred_minus_halves s :
  0 <= s < 2 ^ 53 ->
  sub (of_Z 100) (of_halves s) = of_halves (200 - s).
Proof.
  intros Hs.
  destruct s as [|n|n]; [reflexivity| |lia].
  rewrite of_halves_pos by lia.
  change (of_Z 100) with (canon false 200 (-1)).
  rewrite sub_canon by lia.
  destruct (Pos.compare_spec 200 n) as [E|E|E].
  - subst n. reflexivity.
  - replace (200 - Zpos n) with (Zneg (n - 200)) by lia.
    rewrite of_halves_neg by lia. reflexivity.
  - replace (200 - Zpos n) with (Zpos (200 - n)) by lia.
    rewrite of_halves_pos by lia. reflexivity.
Qed.

(** X13. For a selection of any size whose prices are whole numbers of
    half credits, [totalCredits] is the exact sum of the prices and
    [creditsLeft] is exactly 100 minus that sum, negative when the
    selection is over budget ([hs] lists the prices in half credits). *)
Theorem credits_exact_on_half_credits :
  forall (st : State) (hs : list Z),
    map base_price (selectedPlayers st) = map of_halves hs ->
    Forall (fun h => 0 <= h) hs ->
    sumZ hs < 2 ^ 53 ->
    totalCredits st = of_halves (sumZ hs)
    /\ creditsLeft st = of_halves (200 - sumZ hs).
Proof.
  intros st hs Hp Hall Hlt.
  assert (Ht : totalCredits st = of_halves (sumZ hs)).
  { rewrite totalCredits_prices, Hp.
    change (of_Z 0) with (of_halves 0).
    rewrite fold_add_halves; auto; lia. }
  split; [exact Ht|].
  unfold creditsLeft. rewrite Ht.
  apply hundred_minus_halves. split; [|assumption].
  clear -Hall. induction Hall; cbn [sumZ fold_right]; [lia|].
  fold (sumZ l). lia.
Qed.

Lemma fold_credits_perm l1 l2 :
  Permutation l1 l2 ->
  Forall halfPriced l1 ->
  forall a,
    0 <= a ->
    a + 200 * Z.of_nat (List.length l1) < 2 ^ 53 ->
    fold_left (fun sum p => add sum (base_price p)) l1 (of_halves a)
    = fold_left (fun sum p => add sum (base_price p)) l2 (of_halves a).
Proof.
  induction 1 as [|x l l' Hperm IH|x y l|l l' l'' H1 IH1 H2 IH2];
    intros Hall a Ha Hb.
  - reflexivity.
  - inversion Hall as [|? ? (h & Hh & Eh) Hall']; subst.
    cbn [fold_left List.length] in *. rewrite Eh.
    rewrite add_of_halves by lia.
    apply IH; [assumption|lia|lia].
  - inversion Hall as [|? ? (hy & Hhy & Ey) Hall']; subst.
    inversion Hall' as [|? ? (hx & Hhx & Ex) Hall'']; subst.
    cbn [fold_left List.length] in *. rewrite Ex, Ey.
    rewrite !add_of_halves by lia.
    do 2 f_equal. lia.
  - rewrite IH1 by assumption.
    apply IH2.
    + eapply Permutation_Forall; eauto.
    + assumption.
    + rewrite <- (Permutation_length H1). assumption.
Qed.

(** X14. For at most 11 players priced in whole half credits (up to 100
    credits each), the order in which they were selected does not matter
    to [totalCredits], to [creditsLeft] or to the budget test of the
    submit button. *)
Theorem credits_do_not_depend_on_order :
  forall (st1 st2 : State),
    Permutation (selectedPlayers st1) (selectedPlayers st2) ->
    Forall halfPriced (selectedPlayers st1) ->
    (List.length (selectedPlayers st1) <= 11)%nat ->
    totalCredits st1 = totalCredits st2
    /\ creditsLeft st1 = creditsLeft st2
    /\ ltb (creditsLeft st1) (of_Z 0) = ltb (creditsLeft st2) (of_Z 0).
Proof.
  intros st1 st2 Hperm Hall Hlen.
  assert (Ht : totalCredits st1 = totalCredits st2).
  { unfold totalCredits. change (of_Z 0) with (of_halves 0).
    apply fold_credits_perm; try assumption; [lia|].
    apply Z.le_lt_trans with (200 * 11); [lia|reflexivity]. }
  unfold creditsLeft. rewrite Ht. repeat split.
Qed.

End Credits.

(* ================================================================= *)
(** ** What a toggle leaves alone *)

Section Frame.

Import CreateTeam.

Lemma append_other_id x y l (p : Player) :
  y <> id p -> x = y ->
  (In x (map id (l ++ [p])) <-> In y (map id l)).
Proof.
  intros Hne ->. rewrite map_app, in_app_iff. cbn [map In].
  split; [intros [H|[H|[]]]; [assumption|congruence]|auto].
Qed.

Lemma holds_other d p q :
  id q <> id p -> holds d p = true -> holds d q = false.
Proof.
  intros Hne H. destruct (holds_id _ _ H) as (c & -> & Eid).
  cbn [holds]. apply String.eqb_neq. congruence.
Qed.

(** X15. Ticking or unticking a player concerns that player only: for
    every player with another id, whether it is selected and whether it
    is the captain or the vice-captain is the same before and after. *)
Theorem togglePlayer_leaves_others :
  forall (st : State) (p q : Player),
    id q <> id p ->
    isSelected (togglePlayer st p) q = isSelected st q
    /\ holds (captain (togglePlayer st p)) q = holds (captain st) q
    /\ holds (viceCaptain (togglePlayer st p)) q = holds (viceCaptain st) q.
Proof.
  intros st p q Hne. repeat split.
  - destruct (isSelected st q) eqn:Eq.
    + now apply isSelected_after_toggle_other.
    + apply isSelected_false. apply isSelected_false in Eq.
      intros Hin. apply Eq. unfold selectedIds in *.
      rewrite togglePlayer_selected in Hin.
      destruct (isSelected st p).
      * eapply remove_id_subset; eauto.
      * destruct (List.length (selectedPlayers st) <? 11)%nat; [|assumption].
        eapply append_other_id; eauto.
  - rewrite togglePlayer_captain.
    destruct (isSelected st p); cbn [andb]; [|reflexivity].
    destruct (holds (captain st) p) eqn:Eh; [|reflexivity].
    cbn [holds]. symmetry. eapply holds_other; eauto.
  - rewrite togglePlayer_viceCaptain.
    destruct (isSelected st p); cbn [andb]; [|reflexivity].
    destruct (holds (viceCaptain st) p) eqn:Eh; [|reflexivity].
    cbn [holds]. symmetry. eapply holds_other; eauto.
Qed.

End Frame.

(* ================================================================= *)
(** ** Further instances *)

Section MoreInstances.

Import Api.
Import CreateTeam.
Import Sample.

Lemma checkbox_agrees_with_togglePlayer_witness :
  nth_error (filteredPlayers fullHouse) 11 = Some (mk "p12" nine)
  /\ checkboxDisabled fullHouse (mk "p12" nine) = true
  /\ togglePlayer fullHouse (mk "p12" nine) = fullHouse
  /\ dispatch fullHouse (ToggleRow 11) = togglePlayer fullHouse (mk "p12" nine).
Proof.
  assert (H : nth_error (filteredPlayers fullHouse) 11 = Some (mk "p12" nine))
    by reflexivity.
  destruct (checkbox_agrees_with_togglePlayer fullHouse 11 (mk "p12" nine) H)
    as (Hiff & _ & Hd).
  exact (conj H (conj eq_refl (conj (proj1 Hiff eq_refl) Hd))).
Defined.

Lemma card_names_the_match_witness :
  Contests.match_id (contest 2 1) <> "__proto__"
  /\ Contests.cardDescription
       (Contests.fetchData (inr [contest 2 1]) (inr matchesOfM1)
                           Contests.initialState)
       (contest 2 1)
     = "ENG vs PAK".
Proof.
  assert (H : Contests.match_id (contest 2 1) <> "__proto__")
    by (intros E; discriminate E).
  exact (conj H (card_names_the_match [contest 2 1] matchesOfM1
                   Contests.initialState (contest 2 1) H)).
Defined.

Lemma togglePlayer_twice_restores_witness :
  captainSelected pairTeam = true
  /\ viceCaptainSelected pairTeam = true
  /\ isSelected pairTeam (mk "p03" nine) = false
  /\ (List.length (selectedPlayers pairTeam) < 11)%nat
  /\ togglePlayer (togglePlayer pairTeam (mk "p03" nine)) (mk "p03" nine) = pairTeam.
Proof.
  assert (H : (List.length (selectedPlayers pairTeam) < 11)%nat)
    by (cbn; lia).
  exact (conj eq_refl (conj eq_refl (conj eq_refl (conj H
           (togglePlayer_twice_restores pairTeam (mk "p03" nine)
              eq_refl eq_refl eq_refl H))))).
Defined.

Lemma no_authentication_without_success_witness :
  forallb AuthContext.unsuccessful
          [AuthContext.Mount (inl (mkHttpError None));
           AuthContext.Login (inl (mkHttpError (Some "Invalid credentials")));
           AuthContext.Logout] = true
  /\ AuthContext.isAuthenticated
       (AuthContext.run
          [AuthContext.Mount (inl (mkHttpError None));
           AuthContext.Login (inl (mkHttpError (Some "Invalid credentials")));
           AuthContext.Logout]
          (AuthContext.initialState (Some "stale-token"))) = false.
Proof.
  exact (conj eq_refl
           (no_authentication_without_success (Some "stale-token")
              [AuthContext.Mount (inl (mkHttpError None));
               AuthContext.Login (inl (mkHttpError (Some "Invalid credentials")));
               AuthContext.Logout] eq_refl)).
Defined.

Lemma logout_clears_session_witness :
  forallb AuthContext.unsuccessful
          [AuthContext.Refresh (inl (mkHttpError None))] = true
  /\ AuthContext.auth_token
       (AuthContext.run
          [AuthContext.Refresh (inl (mkHttpError None))]
          (AuthContext.logout
             (AuthContext.mkState
                (Some (AuthContext.mkUser "u1" "alice" (of_Z 50)))
                false (Some "token") None))) = None.
Proof.
  exact (conj eq_refl
           (proj2 (logout_clears_session
                     (AuthContext.mkState
                        (Some (AuthContext.mkUser "u1" "alice" (of_Z 50)))
                        false (Some "token") None)
                     [AuthContext.Refresh (inl (mkHttpError None))] eq_refl))).
Defined.

Lemma credits_exact_on_half_credits_witness :
  map base_price (selectedPlayers overBudgetTeam) = map of_halves (repeat 20 11)
  /\ Forall (fun h => 0 <= h) (repeat 20 11)
  /\ sumZ (repeat 20 11) < 2 ^ 53
  /\ totalCredits overBudgetTeam = of_halves 220
  /\ creditsLeft overBudgetTeam = of_halves (-20).
Proof.
  assert (H2 : Forall (fun h => 0 <= h) (repeat 20 11))
    by (repeat constructor; intros E; discriminate E).
  assert (H3 : sumZ (repeat 20 11) < 2 ^ 53) by reflexivity.
  exact (conj eq_refl (conj H2 (conj H3
           (credits_exact_on_half_credits overBudgetTeam (repeat 20 11)
              eq_refl H2 H3)))).
Defined.

Lemma credits_do_not_depend_on_order_witness :
  Permutation (selectedPlayers pairTeam) (rev (selectedPlayers pairTeam))
  /\ Forall halfPriced (selectedPlayers pairTeam)
  /\ totalCredits pairTeam
     = totalCredits (builder (rev (selectedPlayers pairTeam)) None None).
Proof.
  assert (H1 : Permutation (selectedPlayers pairTeam)
                           (selectedPlayers
                              (builder (rev (selectedPlayers pairTeam)) None None)))
    by apply perm_swap.
  assert (H2 : Forall halfPriced (selectedPlayers pairTeam)).
  { repeat constructor; exists 18; (split; [split; intros E; discriminate E|reflexivity]). }
  assert (H3 : (List.length (selectedPlayers pairTeam) <= 11)%nat) by (cbn; lia).
  exact (conj H1 (conj H2
           (proj1 (credits_do_not_depend_on_order pairTeam
                     (builder (rev (selectedPlayers pairTeam)) None None)
                     H1 H2 H3)))).
Defined.

Lemma togglePlayer_leaves_others_witness :
  id (mk "p02" nine) <> id (mk "p01" nine)
  /\ isSelected (togglePlayer pairTeam (mk "p01" nine)) (mk "p02" nine) = true.
Proof.
  assert (H : id (mk "p02" nine) <> id (mk "p01" nine))
    by (intros E; discriminate E).
  exact (conj H (proj1 (togglePlayer_leaves_others pairTeam (mk "p01" nine)
                          (mk "p02" nine) H))).
Defined.

End MoreInstances.
